(** * A forwarding HTTP proxy: the request handler of [httpserver.py]

    A shallow embedding of [ProxyHTTPHandler] (httpserver.py), of the
    module globals of [shared_settings.py] it works on, and of the
    [data] route of [main_blueprint.py] that drains the log queue.

    The handler is stateful Python: it reads and writes the module
    globals, talks to the cache, the origin and the client connection,
    and raises and catches exceptions.  It is embedded in a state and
    exception monad [M] over a [State] that holds the shared settings and
    the trace of the calls made on the outside world.

    Exceptions come from where the source can meet them on its own
    inputs: [urlparse], [int], [Request], [urlopen], [res.read()], and
    [send_error] when it is handed a reason that is no string.  Calls on
    the cache and writes to the client connection are recorded in the
    trace and return normally.  The methods [send_response] and [send_error]
    that the handler inherits are embedded as far as the handler can
    observe them: both log through [log_message], which the handler
    overrides to feed the log queue. *)

From Stdlib Require Import ZArith Lia Ascii String DecimalString.
From stdpp Require Import base option list strings gmap.

Open Scope string_scope.
Open Scope Z_scope.
Open Scope list_scope.

(** ** Python values that cross the handler *)

Abbreviation bytes := (list Byte.byte).

(** The exception classes that [handle_exception] tells apart, with
    those that only reach its last branch spelled out: [TypeError],
    raised by [int(None)]; [AttributeError], raised by [send_error] on a
    message that is no string; and the root [Exception]. *)
Inductive exn_class :=
| ValueError | TypeError | HTTPError | ConnectionResetError | TimeoutError
| URLError | BrokenPipeError | OSError | Exception | AttributeError.

Global Instance exn_class_eq_dec : EqDecision exn_class.
Proof. solve_decision. Defined.

(** Python's class hierarchy: [HTTPError] derives from [URLError], which
    derives from [OSError]; the connection and timeout errors derive from
    [OSError]; everything derives from [Exception]. *)
Definition issubclass (c d : exn_class) : bool :=
  match d with
  | Exception => true
  | OSError =>
      match c with
      | HTTPError | URLError | ConnectionResetError | TimeoutError
      | BrokenPipeError | OSError => true
      | _ => false
      end
  | URLError => match c with HTTPError | URLError => true | _ => false end
  | _ => bool_decide (c = d)
  end.

(** [e.reason] of a [URLError]: a string (the reason phrase of an
    [HTTPError], or a message such as "no host given"), or some other
    object, which is what [urlopen] wraps when a socket call fails;
    [text] is then what [str] makes of the object. *)
Inductive reason :=
| ReasonStr (s : string)
| ReasonObj (text : string).

(** An exception object: its class and the attributes the handler reads
    ([e.code], [e.reason], [e.strerror], [str(e)]). *)
Record exn := {
  e_class : exn_class;
  e_code : Z;
  e_reason : reason;
  e_strerror : string;
  e_str : string;
}.

Definition isinstance (e : exn) (c : exn_class) : bool :=
  issubclass (e_class e) c.

(** A header value handed to [urllib.request.Request]: [do_POST] passes
    an [int] and a possibly missing header next to the strings. *)
Inductive pyval :=
| VStr (s : string)
| VInt (z : Z)
| VNone.

(** [urllib.request.Request(url, data, headers, method)]. *)
Record Request := {
  full_url : string;
  req_data : option bytes;
  req_headers : list (string * pyval);
  method : option string;
}.

(** The response object [urlopen] returns: [res.status],
    [res.headers.items()] and what [res.read()] does. *)
Record Response := {
  status : Z;
  res_headers : list (string * string);
  res_read : exn + bytes;
}.

(** The value [do_GET] stores in the cache:
    [{'headers': ..., 'content': ...}]. *)
Record CacheEntry := {
  ce_headers : list (string * string);
  ce_content : bytes;
}.

(** ** The module globals of [shared_settings.py] *)

(** [cache] stands for the [diskcache.Cache]: every key holds its value
    and the time at which it expires. *)
Record shared_settings := {
  sse_queue : list string;
  cache : gmap string (CacheEntry * Z);
  url_whitelist : list string;
  url_blacklist : list string;
  ip_whitelist : list string;
  ip_blacklist : list string;
  allow_caching : bool;
  caching_timer : Z;
}.

(** ** The calls the handler makes on the outside world *)
Inductive event :=
| CacheGet (key : string)
| CacheSet (key : string) (value : CacheEntry) (expire : Z)
| Urlopen (req : Request)
| RfileRead (n : Z)
| SendResponse (code : Z) (message : option string)
| SendHeader (keyword value : string)
| EndHeaders
| WfileWrite (b : bytes)
| SendError (code : Z) (message : string) (explain : option string).

Record State := {
  ss : shared_settings;
  trace : list event;
}.

(** The request handler instance ([self]): what [BaseHTTPRequestHandler]
    has parsed from the connection before it calls [do_<METHOD>]. *)
Record Handler := {
  client_address : string * Z;
  path : string;
  requestline : string;
  headers : list (string * string);
  rfile : bytes;
}.

(** What the Python runtime and the network answer during one request:
    the standard library's [urlparse(...).hostname] (which may raise) and
    [int] on a string ([None] for a [ValueError]); the scheme that
    [urllib.request.Request] finds in a URL ([None] when it finds none);
    what opening a request with a scheme yields, from the origin or from
    the library on the way there; the clock of the cache and the
    timestamp of the log. *)
Record Env := {
  urlparse_hostname : string -> exn + option string;
  int_str : string -> option Z;
  url_type : string -> option string;
  open_request : Request -> exn + Response;
  time : Z;
  log_date_time_string : string;
}.

(** The [ValueError] of [Request] on a URL without a scheme. *)
Definition unknown_url_type (url : string) : exn :=
  {| e_class := ValueError; e_code := 0; e_reason := ReasonStr EmptyString;
     e_strerror := EmptyString; e_str := "unknown url type: '" +:+ url +:+ "'" |}.

(** [urlopen(req)].  Given a string, [urlopen] first builds the
    [Request], so that a URL without a scheme ends in the same
    [ValueError]; a [Request] object of such a URL does not exist. *)
Definition urlopen (env : Env) (req : Request) : exn + Response :=
  match url_type env (full_url req) with
  | None => inl (unknown_url_type (full_url req))
  | Some _ => open_request env req
  end.

Arguments urlopen : simpl never.

(** ** The monad: state, and exceptions as a left result *)

Definition M (A : Type) : Type := State -> (exn + A) * State.

Global Instance M_ret : MRet M := fun A a s => (inr a, s).
Global Instance M_bind : MBind M := fun A B k m s =>
  match m s with
  | (inl e, s') => (inl e, s')
  | (inr a, s') => k a s'
  end.

Definition raise {A} (e : exn) : M A := fun s => (inl e, s).

(** [try: m except Exception as e: h e]. *)
Definition try_except {A} (m : M A) (h : exn -> M A) : M A := fun s =>
  match m s with
  | (inl e, s') => h e s'
  | r => r
  end.

Definition lift {A} (r : exn + A) : M A := fun s => (r, s).

Definition gets {A} (f : shared_settings -> A) : M A :=
  fun s => (inr (f (ss s)), s).

Definition emit (ev : event) : M unit :=
  fun s => (inr tt, {| ss := ss s; trace := trace s ++ [ev] |}).

Definition set_sse_queue (q : list string) (g : shared_settings) :=
  {| sse_queue := q; cache := cache g;
     url_whitelist := url_whitelist g; url_blacklist := url_blacklist g;
     ip_whitelist := ip_whitelist g; ip_blacklist := ip_blacklist g;
     allow_caching := allow_caching g; caching_timer := caching_timer g |}.

Definition set_cache (c : gmap string (CacheEntry * Z)) (g : shared_settings) :=
  {| sse_queue := sse_queue g; cache := c;
     url_whitelist := url_whitelist g; url_blacklist := url_blacklist g;
     ip_whitelist := ip_whitelist g; ip_blacklist := ip_blacklist g;
     allow_caching := allow_caching g; caching_timer := caching_timer g |}.

Definition modify (f : shared_settings -> shared_settings) : M unit :=
  fun s => (inr tt, {| ss := f (ss s); trace := trace s |}).

(** [for x in l: f x]. *)
Fixpoint for_each {A} (l : list A) (f : A -> M unit) : M unit :=
  match l with
  | [] => mret tt
  | x :: l' => f x ;; for_each l' f
  end.

(** ** The log queue ([queue.Queue], unbounded) *)

(** [ss.sse_queue.put(line)]. *)
Definition queue_put (line : string) (g : shared_settings) : shared_settings :=
  set_sse_queue (sse_queue g ++ [line]) g.

Definition sse_queue_put (line : string) : M unit := modify (queue_put line).

(** [data] (main_blueprint.py): [send_data = list(ss.sse_queue.queue)],
    then [ss.sse_queue.queue.clear()]; [send_data] is returned. *)
Definition data (g : shared_settings) : list string * shared_settings :=
  let send_data := sse_queue g in
  (send_data, set_sse_queue [] g).

(** ** Strings *)

(** [str(n)] and the [%d] of a format, for an [int]. *)
Definition str_Z (z : Z) : string := NilZero.string_of_int (Z.to_int z).

(** The double quote character, as a string. *)
Definition dquote : string := String (ascii_of_nat 34) EmptyString.

(** [needle in hay] on strings. *)
Fixpoint contains (needle hay : string) : bool :=
  String.prefix needle hay ||
  match hay with
  | EmptyString => false
  | String _ hay' => contains needle hay'
  end.

(** [x in l] for a list of strings [l]; [x] may be [None]. *)
Definition py_in (x : option string) (l : list string) : bool :=
  match x with
  | Some v => bool_decide (v ∈ l)
  | None => false
  end.

(** Truth value of a list: non-empty. *)
Definition truthy {A} (l : list A) : bool :=
  match l with [] => false | _ => true end.

(** ASCII lower case, as the header lookup of [email.message.Message]
    compares names. *)
Definition lower_char (c : ascii) : ascii :=
  let n := nat_of_ascii c in
  if ((65 <=? n)%nat && (n <=? 90)%nat)%bool then ascii_of_nat (n + 32) else c.

Fixpoint lower (s : string) : string :=
  match s with
  | EmptyString => EmptyString
  | String c s' => String (lower_char c) (lower s')
  end.

(** [self.headers.get(name)]: the first header of that name, compared
    without case; [None] when there is none.  [self.headers[name]] is the
    same. *)
Fixpoint msg_get (name : string) (hs : list (string * string)) : option string :=
  match hs with
  | [] => None
  | (k, v) :: hs' =>
      if decide (lower k = lower name) then Some v else msg_get name hs'
  end.

(** [d[k] = v] on a [dict], kept in insertion order. *)
Fixpoint dict_set {V} (k : string) (v : V) (d : list (string * V))
  : list (string * V) :=
  match d with
  | [] => [(k, v)]
  | (k', v') :: d' =>
      if decide (k = k') then (k, v) :: d' else (k', v') :: dict_set k v d'
  end.

(** [d.get(k)] on such a [dict]. *)
Fixpoint dict_get {V} (k : string) (d : list (string * V)) : option V :=
  match d with
  | [] => None
  | (k', v') :: d' => if decide (k = k') then Some v' else dict_get k d'
  end.

(** The loop of [do_DELETE] and [do_PUT]:
    [headers = {}; for header, value in self.headers.items(): headers[header] = value]. *)
Definition copy_headers (hs : list (string * string)) : list (string * pyval) :=
  foldl (fun d '(header, value) => dict_set header (VStr value) d) [] hs.

(** The exceptions [int] raises in [do_POST] and [do_PUT]. *)
Definition int_ValueError (s : string) : exn :=
  {| e_class := ValueError; e_code := 0; e_reason := ReasonStr EmptyString; e_strerror := EmptyString;
     e_str := "invalid literal for int() with base 10: '" +:+ s +:+ "'" |}.

(** The exception of [html.escape] on an object that is no string. *)
Definition attribute_error : exn :=
  {| e_class := AttributeError; e_code := 0; e_reason := ReasonStr EmptyString;
     e_strerror := EmptyString;
     e_str := "object has no attribute 'replace'" |}.

Definition int_TypeError : exn :=
  {| e_class := TypeError; e_code := 0; e_reason := ReasonStr EmptyString; e_strerror := EmptyString;
     e_str := "int() argument must be a string, a bytes-like object or a real number, not 'NoneType'" |}.

(** What [read(n)] returns on a stream that holds [stream] before its
    end: at most [n] bytes, everything for a negative [n]. *)
Definition read_bytes (stream : bytes) (n : Z) : bytes :=
  if n <? 0 then stream else take (Z.to_nat n) stream.

(** ** The cache ([diskcache.Cache]) *)

(** [cache.get(key)] at time [now]: the value, unless the key is absent
    or its entry has expired. *)
Definition cache_lookup (now : Z) (key : string)
    (c : gmap string (CacheEntry * Z)) : option CacheEntry :=
  match c !! key with
  | Some (v, expire_time) => if now <? expire_time then Some v else None
  | None => None
  end.

(** [cache.set(key, value, expire=expire)] at time [now]. *)
Definition cache_store (now : Z) (key : string) (v : CacheEntry) (expire : Z)
    (c : gmap string (CacheEntry * Z)) : gmap string (CacheEntry * Z) :=
  <[key := (v, now + expire)]> c.

(** ** The handler *)

Section ProxyHTTPHandler.

Context (env : Env).

Definition cache_get (key : string) : M (option CacheEntry) :=
  emit (CacheGet key) ;;
  gets (fun g => cache_lookup (time env) key (cache g)).

Definition cache_set (key : string) (v : CacheEntry) (expire : Z) : M unit :=
  emit (CacheSet key v expire) ;;
  modify (fun g => set_cache (cache_store (time env) key v expire (cache g)) g).

(** [req = Request(url, ...)]: the constructor raises a [ValueError]
    for a URL without a scheme. *)
Definition new_Request (req : Request) : M Request :=
  match url_type env (full_url req) with
  | None => raise (unknown_url_type (full_url req))
  | Some _ => mret req
  end.

(** [urlopen(req)]. *)
Definition do_urlopen (req : Request) : M Response :=
  emit (Urlopen req) ;; lift (urlopen env req).

(** [urlopen(url)] on a string: a [Request] of the URL alone. *)
Definition urlopen_url (url : string) : M Response :=
  do_urlopen {| full_url := url; req_data := None; req_headers := []; method := None |}.

Definition read (res : Response) : M bytes := lift (res_read res).

(** [self.rfile.read(n)]: up to [n] bytes of what the client sends,
    all of it for a negative [n]. *)
Definition rfile_read (self : Handler) (n : Z) : M bytes :=
  emit (RfileRead n) ;;
  mret (read_bytes (rfile self) n).

(** *** Logging *)

Definition address_string (self : Handler) : string := fst (client_address self).

(** [log_message]: the argument is [format % args]. *)
Definition log_message (self : Handler) (message : string) : M unit :=
  let log_string :=
    log_date_time_string env +:+ " " +:+ address_string self +:+ " " +:+ message in
  sse_queue_put log_string.

(** [log_request(code)] and [log_error(format, *args)] of
    [BaseHTTPRequestHandler]: both go through [log_message]. *)
Definition log_request (self : Handler) (code : Z) : M unit :=
  log_message self (dquote +:+ requestline self +:+ dquote +:+ " " +:+ str_Z code +:+ " -").

Definition log_error (self : Handler) (message : string) : M unit :=
  log_message self message.

(** *** Answering the client ([BaseHTTPRequestHandler]) *)

(** [send_response(code, message)] logs the request, then writes the
    status line and the Server and Date headers. *)
Definition send_response (self : Handler) (code : Z) (message : option string) : M unit :=
  log_request self code ;;
  emit (SendResponse code message).

Definition send_header (keyword value : string) : M unit :=
  emit (SendHeader keyword value).

Definition end_headers : M unit := emit EndHeaders.

Definition wfile_write (b : bytes) : M unit := emit (WfileWrite b).

(** [send_error(code, message, explain)] logs the error, logs the
    request, and writes a complete error response with that status and
    reason. *)
Definition send_error (self : Handler) (code : Z) (message : string)
    (explain : option string) : M unit :=
  log_error self ("code " +:+ str_Z code +:+ ", message " +:+ message) ;;
  log_request self code ;;
  emit (SendError code message explain).

(** [send_error(code, e.reason, explain)].  With a reason that is no
    string, [send_error] logs the error and the request, the object
    formatted by [%s], and then raises an [AttributeError] where it
    escapes the message for the error page, before any byte of the
    response has left its buffer. *)
Definition send_error_reason (self : Handler) (code : Z) (message : reason)
    (explain : option string) : M unit :=
  match message with
  | ReasonStr m => send_error self code m explain
  | ReasonObj text =>
      log_error self ("code " +:+ str_Z code +:+ ", message " +:+ text) ;;
      log_request self code ;;
      raise attribute_error
  end.

(** *** The filters *)

Definition filter_request_url (self : Handler) : M bool :=
  url_hostname ← lift (urlparse_hostname env (path self)) ;
  wl ← gets url_whitelist ;
  bl ← gets url_blacklist ;
  if truthy wl && negb (py_in url_hostname wl) then mret false
  else if py_in url_hostname bl && negb (py_in url_hostname wl) then mret false
  else mret true.

Definition filter_request_ip (self : Handler) : M bool :=
  let '(client_ip, client_port) := client_address self in
  wl ← gets ip_whitelist ;
  bl ← gets ip_blacklist ;
  if truthy wl && negb (py_in (Some client_ip) wl) then mret false
  else if py_in (Some client_ip) bl && negb (py_in (Some client_ip) wl) then mret false
  else mret true.

(** *** Exceptions *)

Definition handle_exception (self : Handler) (e : exn) : M unit :=
  if isinstance e ValueError then
    send_error self 400 "Bad Request" None
  else if isinstance e HTTPError then
    send_error_reason self (e_code e) (e_reason e) (Some (e_str e))
  else if isinstance e ConnectionResetError then
    sse_queue_put "* connection reset by remote host *"
  else if isinstance e TimeoutError then
    sse_queue_put "* timeout while accessing URL: {self.path} *" ;;
    send_error self 504 "Gateway Timeout" None
  else if isinstance e URLError then
    send_error_reason self 502 (e_reason e) None
  else if isinstance e BrokenPipeError then
    sse_queue_put "* client disconnected before response could be sent *"
  else if isinstance e OSError then
    sse_queue_put ("* OS Error: " +:+ e_strerror e +:+ " *") ;;
    send_error self 500 "Internal Server Error" None
  else
    sse_queue_put ("* unexpected Error: " +:+ e_str e +:+ " *") ;;
    send_error self 500 "Internal Server Error" None.

(** The decorator [filter_and_exceptions]: [wrapper] around [func]. *)
Definition filter_and_exceptions (func : Handler -> M unit) (self : Handler) : M unit :=
  try_except
    (ip_ok ← filter_request_ip self ;
     ok ← (if ip_ok : bool then filter_request_url self else mret false) ;
     if negb ok then send_error self 403 "Access Denied" None
     else func self)
    (handle_exception self).

(** *** The HTTP methods, before decoration *)

(** Relaying [res.headers.items()], or the cached headers. *)
Definition send_headers (hs : list (string * string)) : M unit :=
  for_each hs (fun '(header, value) => send_header header value).

Definition GET (self : Handler) : M unit :=
  cached_response ← cache_get (path self) ;
  allow ← gets allow_caching ;
  match cached_response, allow with
  | Some cached, true =>
      sse_queue_put ("* sent data from cache " +:+ path self +:+ " *") ;;
      send_response self 200 (Some "OK (from cache)") ;;
      let cached_headers := ce_headers cached in
      let cached_content := ce_content cached in
      send_headers cached_headers ;;
      end_headers ;;
      wfile_write cached_content
  | _, _ =>
      res ← urlopen_url (path self) ;
      res_content ← read res ;
      let cache_data := {| ce_headers := res_headers res; ce_content := res_content |} in
      allow ← gets allow_caching ;
      (if allow : bool
       then timer ← gets caching_timer ; cache_set (path self) cache_data timer
       else mret tt) ;;
      send_response self (status res) None ;;
      send_headers (ce_headers cache_data) ;;
      end_headers ;;
      wfile_write res_content
  end.

Definition POST (self : Handler) : M unit :=
  let url := path self in
  content_length ←
    match msg_get "Content-Length" (headers self) with
    | None => raise int_TypeError
    | Some v =>
        match int_str env v with
        | Some n => mret n
        | None => raise (int_ValueError v)
        end
    end ;
  post_data ← rfile_read self content_length ;
  let headers_ :=
    [ ("Content-Type",
        match msg_get "Content-Type" (headers self) with
        | Some v => VStr v
        | None => VNone
        end);
      ("Content-Length", VInt (Z.of_nat (length post_data))) ] in
  req ← new_Request {| full_url := url; req_data := Some post_data;
                       req_headers := headers_; method := Some "POST" |} ;
  res ← do_urlopen req ;
  res_content ← read res ;
  send_response self (status res) None ;;
  send_headers (res_headers res) ;;
  end_headers ;;
  wfile_write res_content.

Definition DELETE (self : Handler) : M unit :=
  let url := path self in
  let headers_ := copy_headers (headers self) in
  req ← new_Request {| full_url := url; req_data := None;
                       req_headers := headers_; method := Some "DELETE" |} ;
  res ← do_urlopen req ;
  send_response self (status res) None ;;
  send_headers (res_headers res) ;;
  end_headers ;;
  res_content ← read res ;
  wfile_write res_content.

Definition OPTIONS (self : Handler) : M unit :=
  send_response self 200 None ;;
  send_header "Allow" "OPTIONS, GET, HEAD, POST, PUT, DELETE, CONNECT" ;;
  send_header "Content-Length" "0" ;;
  end_headers.

Definition PUT (self : Handler) : M unit :=
  let url := path self in
  let headers_ := copy_headers (headers self) in
  content_length ←
    match msg_get "Content-Length" (headers self) with
    | None => mret 0
    | Some v =>
        match int_str env v with
        | Some n => mret n
        | None => raise (int_ValueError v)
        end
    end ;
  request_body ← rfile_read self content_length ;
  req ← new_Request {| full_url := url; req_data := Some request_body;
                       req_headers := headers_; method := Some "PUT" |} ;
  res ← do_urlopen req ;
  send_response self (status res) None ;;
  send_headers (res_headers res) ;;
  end_headers ;;
  res_content ← read res ;
  wfile_write res_content.

Definition TRACE (self : Handler) : M unit :=
  send_error self 405 "Method Not Allowed" None.

Definition CONNECT (self : Handler) : M unit :=
  send_error self 405 "Method Not Allowed" None.

Definition HEAD (self : Handler) : M unit :=
  res ← urlopen_url (path self) ;
  send_response self (status res) None ;;
  send_headers (res_headers res) ;;
  end_headers.

(** *** The decorated methods, as the server calls them *)

Definition do_GET := filter_and_exceptions GET.
Definition do_POST := filter_and_exceptions POST.
Definition do_DELETE := filter_and_exceptions DELETE.
Definition do_OPTIONS := filter_and_exceptions OPTIONS.
Definition do_PUT := filter_and_exceptions PUT.
Definition do_TRACE := filter_and_exceptions TRACE.
Definition do_CONNECT := filter_and_exceptions CONNECT.
Definition do_HEAD := filter_and_exceptions HEAD.

End ProxyHTTPHandler.

(** ** An environment to run the handler in

    A small world for the examples: an origin with three resources, one
    of which never answers; the two standard-library functions restricted
    to the inputs the examples use ([http://host/...] URLs and decimal
    numerals). *)
Module Example.

Fixpoint take_until (c : ascii) (s : string) : string :=
  match s with
  | EmptyString => EmptyString
  | String d s' => if decide (d = c) then EmptyString else String d (take_until c s')
  end.

Fixpoint drop_prefix (p s : string) : option string :=
  match p, s with
  | EmptyString, _ => Some s
  | String a p', String b s' => if decide (a = b) then drop_prefix p' s' else None
  | _, _ => None
  end.

Definition invalid_ipv6 : exn :=
  {| e_class := ValueError; e_code := 0; e_reason := ReasonStr EmptyString;
     e_strerror := EmptyString; e_str := "Invalid IPv6 URL" |}.

(** [urlparse(url).hostname] on [http://host/path]: the host; [None]
    when the URL has no [//host] part; a [ValueError] for an unmatched
    bracket in the host. *)
Definition hostname (url : string) : exn + option string :=
  match drop_prefix "http://" url with
  | Some rest =>
      let host := take_until "/" rest in
      if contains "[" host && negb (contains "]" host) then inl invalid_ipv6
      else if decide (host = EmptyString) then inr None else inr (Some host)
  | None => inr None
  end.

Fixpoint all_digits (s : string) : bool :=
  match s with
  | EmptyString => true
  | String c s' =>
      ((48 <=? nat_of_ascii c)%nat && (nat_of_ascii c <=? 57)%nat)%bool && all_digits s'
  end.

(** [int(s)] on unsigned decimal numerals; a [ValueError] otherwise. *)
Definition int (s : string) : option Z :=
  if all_digits s && negb (bool_decide (s = EmptyString)) then
    match NilZero.int_of_string s with
    | Some i => Some (Z.of_int i)
    | None => None
    end
  else None.

Definition timed_out : exn :=
  {| e_class := TimeoutError; e_code := 0; e_reason := ReasonStr EmptyString;
     e_strerror := "timed out"; e_str := "timed out" |}.

(** A refused connection: [urlopen] wraps the [ConnectionRefusedError]
    of the socket in a [URLError], whose reason is that object. *)
Definition unreachable : exn :=
  {| e_class := URLError; e_code := 0;
     e_reason := ReasonObj "[Errno 111] Connection refused";
     e_strerror := EmptyString;
     e_str := "<urlopen error [Errno 111] Connection refused>" |}.

(** The [URLError] of a URL with a scheme and no host: its reason is a
    string. *)
Definition no_host_given : exn :=
  {| e_class := URLError; e_code := 0;
     e_reason := ReasonStr "no host given";
     e_strerror := EmptyString;
     e_str := "<urlopen error no host given>" |}.

Definition not_found : exn :=
  {| e_class := HTTPError; e_code := 404; e_reason := ReasonStr "Not Found";
     e_strerror := EmptyString; e_str := "HTTP Error 404: Not Found" |}.

(** The [TypeError] of [http.client] on a header whose value is [None]. *)
Definition header_type_error : exn :=
  {| e_class := TypeError; e_code := 0; e_reason := ReasonStr EmptyString;
     e_strerror := EmptyString; e_str := "expected string or bytes-like object" |}.

Definition hello : bytes := list_byte_of_string "hello".

(** The scheme of a URL as [Request] finds it: the characters before the
    first colon, when there is at least one and none of them is a
    slash. *)
Fixpoint scheme_from (seen : string) (url : string) : option string :=
  match url with
  | EmptyString => None
  | String c url' =>
      if decide (c = ":"%char) then
        if decide (seen = EmptyString) then None else Some seen
      else if decide (c = "/"%char) then None
      else scheme_from (seen +:+ String c EmptyString) url'
  end.

Definition scheme (url : string) : option string := scheme_from EmptyString url.

Definition origin (req : Request) : exn + Response :=
  let url := full_url req in
  if List.existsb (fun kv => match snd kv with VNone => true | _ => false end)
       (req_headers req) then
    inl header_type_error
  else if decide (url = "http://example.com/a") then
    inr {| status := 200; res_headers := [("Content-Type", "text/plain")];
           res_read := inr hello |}
  else if decide (url = "http://example.com/timeout") then inl timed_out
  else if decide (url = "http://down.example.com/") then inl unreachable
  else if decide (url = "http:///a") then inl no_host_given
  else inl not_found.

(** The world of the examples when the clock reads [now]. *)
Definition env_at (now : Z) : Env :=
  {| urlparse_hostname := hostname; int_str := int;
     url_type := scheme; open_request := origin;
     time := now; log_date_time_string := "03/Nov/2026 10:00:00" |}.

Definition env : Env := env_at 1000.

(** The settings a fresh process starts with (shared_settings.py). *)
Definition settings0 : shared_settings :=
  {| sse_queue := []; cache := ∅;
     url_whitelist := []; url_blacklist := [];
     ip_whitelist := []; ip_blacklist := [];
     allow_caching := true; caching_timer := 60 |}.

Definition client (ip : string) (verb url : string) (hs : list (string * string))
    (body : bytes) : Handler :=
  {| client_address := (ip, 50000); path := url;
     requestline := verb +:+ " " +:+ url +:+ " HTTP/1.1";
     headers := hs; rfile := body |}.

End Example.

(** * The settings page ([home_page], main_blueprint.py) *)

(** ** The text of a filter list *)

(** [text.replace(' ', '')]. *)
Fixpoint remove_spaces (text : string) : string :=
  match text with
  | EmptyString => EmptyString
  | String c text' =>
      if decide (c = " "%char) then remove_spaces text'
      else String c (remove_spaces text')
  end.

(** [text.split(',')]: the pieces between the commas, at least one. *)
Fixpoint split_commas (text : string) : list string :=
  match text with
  | EmptyString => [EmptyString]
  | String c text' =>
      if decide (c = ","%char) then EmptyString :: split_commas text'
      else
        match split_commas text' with
        | piece :: pieces => String c piece :: pieces
        | [] => [String c EmptyString]
        end
  end.

(** [[x for x in l if x != '']]. *)
Definition drop_empty (l : list string) : list string :=
  filter (fun x => x ≠ EmptyString) l.

(** What [send_filters] stores for one form field: the split text, then
    the same without the empty pieces. *)
Definition parse_filter_list (text : string) : list string :=
  drop_empty (split_commas (remove_spaces text)).

(** [', '.join(l)]. *)
Fixpoint join_comma (l : list string) : string :=
  match l with
  | [] => EmptyString
  | [x] => x
  | x :: l' => x +:+ ", " +:+ join_comma l'
  end.

(** ** The page *)

(** What [home_page] sets off besides the settings: the thread that runs
    the proxy, and [http_server.shutdown()]. *)
Inductive admin_action :=
| StartProxyThread
| ServerShutdown.

(** The exceptions [home_page] lets escape: a missing form key, and
    [int] on a text that is no number. *)
Inductive form_error :=
| BadRequestKeyError (key : string)
| FormValueError (text : string).

(** The globals [home_page] works on: the settings of the handler, the
    running flag, and the actions set off so far. *)
Record admin := {
  settings : shared_settings;
  proxy_server_running : bool;
  actions : list admin_action;
}.

(** The arguments [home_page] hands to [render_template]. *)
Record page := {
  btn_color : string;
  page_caching_timer : Z;
  url_blacklist_text : string;
  url_whitelist_text : string;
  ip_blacklist_text : string;
  ip_whitelist_text : string;
}.

Definition with_settings (f : shared_settings → shared_settings) (a : admin) : admin :=
  {| settings := f (settings a);
     proxy_server_running := proxy_server_running a;
     actions := actions a |}.

Definition with_action (act : admin_action) (a : admin) : admin :=
  {| settings := settings a;
     proxy_server_running := proxy_server_running a;
     actions := actions a ++ [act] |}.

Definition set_url_blacklist (l : list string) (g : shared_settings) :=
  {| sse_queue := sse_queue g; cache := cache g;
     url_whitelist := url_whitelist g; url_blacklist := l;
     ip_whitelist := ip_whitelist g; ip_blacklist := ip_blacklist g;
     allow_caching := allow_caching g; caching_timer := caching_timer g |}.

Definition set_url_whitelist (l : list string) (g : shared_settings) :=
  {| sse_queue := sse_queue g; cache := cache g;
     url_whitelist := l; url_blacklist := url_blacklist g;
     ip_whitelist := ip_whitelist g; ip_blacklist := ip_blacklist g;
     allow_caching := allow_caching g; caching_timer := caching_timer g |}.

Definition set_ip_blacklist (l : list string) (g : shared_settings) :=
  {| sse_queue := sse_queue g; cache := cache g;
     url_whitelist := url_whitelist g; url_blacklist := url_blacklist g;
     ip_whitelist := ip_whitelist g; ip_blacklist := l;
     allow_caching := allow_caching g; caching_timer := caching_timer g |}.

Definition set_ip_whitelist (l : list string) (g : shared_settings) :=
  {| sse_queue := sse_queue g; cache := cache g;
     url_whitelist := url_whitelist g; url_blacklist := url_blacklist g;
     ip_whitelist := l; ip_blacklist := ip_blacklist g;
     allow_caching := allow_caching g; caching_timer := caching_timer g |}.

Definition set_allow_caching (b : bool) (g : shared_settings) :=
  {| sse_queue := sse_queue g; cache := cache g;
     url_whitelist := url_whitelist g; url_blacklist := url_blacklist g;
     ip_whitelist := ip_whitelist g; ip_blacklist := ip_blacklist g;
     allow_caching := b; caching_timer := caching_timer g |}.

Definition set_caching_timer (n : Z) (g : shared_settings) :=
  {| sse_queue := sse_queue g; cache := cache g;
     url_whitelist := url_whitelist g; url_blacklist := url_blacklist g;
     ip_whitelist := ip_whitelist g; ip_blacklist := ip_blacklist g;
     allow_caching := allow_caching g; caching_timer := n |}.

(** One statement block of the page: it may raise, and what it changed
    before it raised stays changed. *)
Definition step : Type := admin → option form_error * admin.

Definition and_then (first next : step) : step := fun a =>
  match first a with
  | (Some e, a') => (Some e, a')
  | (None, a') => next a'
  end.

(** [ss.<list> = request.form[key].replace(' ', '').split(',')]. *)
Definition assign_split (form : gmap string string) (key : string)
    (set : list string → shared_settings → shared_settings) : step := fun a =>
  match form !! key with
  | None => (Some (BadRequestKeyError key), a)
  | Some text =>
      (None, with_settings (set (split_commas (remove_spaces text))) a)
  end.

Definition pure_step (f : shared_settings → shared_settings) : step :=
  fun a => (None, with_settings f a).

(** [if 'toggle_server' in request.form: ...]. *)
Definition toggle_server (form : gmap string string) : step := fun a =>
  if bool_decide (is_Some (form !! "toggle_server")) then
    if negb (proxy_server_running a) then (None, with_action StartProxyThread a)
    else (None, with_action ServerShutdown a)
  else (None, a).

(** [if 'send_filters' in request.form: ...]. *)
Definition send_filters (form : gmap string string) : step :=
  if bool_decide (is_Some (form !! "send_filters")) then
    and_then (assign_split form "url_blacklist" set_url_blacklist)
   (and_then (assign_split form "url_whitelist" set_url_whitelist)
   (and_then (assign_split form "ip_blacklist" set_ip_blacklist)
   (and_then (assign_split form "ip_whitelist" set_ip_whitelist)
   (and_then (pure_step (fun g => set_url_blacklist (drop_empty (url_blacklist g)) g))
   (and_then (pure_step (fun g => set_url_whitelist (drop_empty (url_whitelist g)) g))
   (and_then (pure_step (fun g => set_ip_blacklist (drop_empty (ip_blacklist g)) g))
   (and_then (pure_step (fun g => set_ip_whitelist (drop_empty (ip_whitelist g)) g))
             (pure_step (queue_put "> Client updated url filter lists, and ip filter lists <")))))))))
  else fun a => (None, a).

(** [if 'clear_cache' in request.form and ss.cache is not None: ...];
    the cache is created with the module and is never [None]. *)
Definition clear_cache (form : gmap string string) : step :=
  if bool_decide (is_Some (form !! "clear_cache")) then
    and_then (pure_step (set_cache ∅))
             (pure_step (queue_put "> Client cleared cache <"))
  else fun a => (None, a).

(** [str(b)] for a [bool]. *)
Definition str_bool (b : bool) : string := if b then "True" else "False".

(** [ss.caching_timer = int(request.form['cache_time'])]. *)
Definition assign_cache_time (env : Env) (form : gmap string string) : step := fun a =>
  match form !! "cache_time" with
  | None => (Some (BadRequestKeyError "cache_time"), a)
  | Some text =>
      match int_str env text with
      | None => (Some (FormValueError text), a)
      | Some n => (None, with_settings (set_caching_timer n) a)
      end
  end.

(** [if 'send_caching' in request.form: ...]. *)
Definition send_caching (env : Env) (form : gmap string string) : step :=
  if bool_decide (is_Some (form !! "send_caching")) then
    and_then (pure_step (set_allow_caching (bool_decide (is_Some (form !! "allow_cache")))))
   (and_then (assign_cache_time env form)
   (and_then (pure_step (fun g =>
                queue_put ("> Client updated caching to be " +:+
                           str_bool (allow_caching g) +:+ " <") g))
             (pure_step (fun g =>
                queue_put ("> Client updated caching timer to be " +:+
                           str_Z (caching_timer g) +:+ " seconds <") g))))
  else fun a => (None, a).

(** The arguments of [render_template] at the end of [home_page]. *)
Definition render (a : admin) : page :=
  let g := settings a in
  {| btn_color := if proxy_server_running a then "#2ee649" else "#eb4034";
     page_caching_timer := caching_timer g;
     url_blacklist_text := join_comma (url_blacklist g);
     url_whitelist_text := join_comma (url_whitelist g);
     ip_blacklist_text := join_comma (ip_blacklist g);
     ip_whitelist_text := join_comma (ip_whitelist g) |}.

(** [home_page]: [request_method] is [request.method], [form] is
    [request.form]. *)
Definition home_page (env : Env) (request_method : string)
    (form : gmap string string) (a : admin) : (form_error + page) * admin :=
  let '(raised, a') :=
    if decide (request_method = "POST") then
      and_then (toggle_server form)
     (and_then (send_filters form)
     (and_then (clear_cache form)
               (send_caching env form))) a
    else (None, a) in
  match raised with
  | Some e => (inl e, a')
  | None => (inr (render a'), a')
  end.

(** * The vocabulary of the properties *)

(** ** Observing a run *)

(** The events a computation adds to the trace. *)
Definition new_events {A} (m : M A) (s : State) : list event :=
  drop (length (trace s)) (trace (snd (m s))).

(** The lines a computation puts on the log queue. *)
Definition logged {A} (m : M A) (s : State) : list string :=
  drop (length (sse_queue (ss s))) (sse_queue (ss (snd (m s)))).

(** A call of [urlopen]: the forwarding path. *)
Definition is_forward (ev : event) : bool :=
  match ev with Urlopen _ => true | _ => false end.

(** A call of [cache.get] or [cache.set]. *)
Definition is_cache_op (ev : event) : bool :=
  match ev with CacheGet _ | CacheSet _ _ _ => true | _ => false end.

(** The calls of [send_header] that relay a list of headers. *)
Definition header_events (hs : list (string * string)) : list event :=
  map (fun '(header, value) => SendHeader header value) hs.

(** The line [send_error] logs through [log_error]. *)
Definition error_line (env : Env) (self : Handler) (code : Z) (message : string) : string :=
  log_date_time_string env +:+ " " +:+ address_string self +:+ " " +:+
  ("code " +:+ str_Z code +:+ ", message " +:+ message).

(** The line [send_response] logs through [log_request]. *)
Definition access_line (env : Env) (self : Handler) (code : Z) : string :=
  log_date_time_string env +:+ " " +:+ address_string self +:+ " " +:+
  (dquote +:+ requestline self +:+ dquote +:+ " " +:+ str_Z code +:+ " -").

(** ** The filters *)

(** [v] is an element of the list [l]; [None] is in no list of strings. *)
Definition member (v : option string) (l : list string) : Prop :=
  ∃ h, v = Some h ∧ h ∈ l.

(** The value both filters return, read off their two [if]s. *)
Definition filter_decision (wl bl : list string) (v : option string) : bool :=
  if truthy wl && negb (py_in v wl) then false
  else if py_in v bl && negb (py_in v wl) then false
  else true.

(** The three sentences of whitelist precedence for one dimension, and
    the decision they leave in the remaining case. *)
Definition whitelist_precedence (wl bl : list string) (v : option string)
    (ok : bool) : Prop :=
  (wl ≠ [] → ¬ member v wl → ok = false) ∧
  (wl = [] → member v bl → ok = false) ∧
  (member v wl → member v bl → ok = true) ∧
  (ok = true ↔ member v wl ∨ (wl = [] ∧ ¬ member v bl)).

(** Both filters were evaluated and both returned [True]. *)
Definition filter_passes (env : Env) (self : Handler) (s : State) : Prop :=
  filter_request_ip self s = (inr true, s) ∧
  filter_request_url env self s = (inr true, s).

(** The filter returned [False]: the IP filter did, or the IP filter
    returned [True] and the URL filter, evaluated next, returned [False]. *)
Definition filter_rejects (env : Env) (self : Handler) (s : State) : Prop :=
  filter_request_ip self s = (inr false, s) ∨
  (filter_request_ip self s = (inr true, s) ∧
   filter_request_url env self s = (inr false, s)).

(** ** The methods *)

(** The methods the handler defines a [do_<METHOD>] for. *)
Inductive http_method :=
| M_GET | M_POST | M_DELETE | M_OPTIONS | M_PUT | M_TRACE | M_CONNECT | M_HEAD.

(** The method body, as written under the decorator. *)
Definition method_body (env : Env) (m : http_method) : Handler → M unit :=
  match m with
  | M_GET => GET env
  | M_POST => POST env
  | M_DELETE => DELETE env
  | M_OPTIONS => OPTIONS env
  | M_PUT => PUT env
  | M_TRACE => TRACE env
  | M_CONNECT => CONNECT env
  | M_HEAD => HEAD env
  end.

(** The attribute the server looks up and calls: [do_<METHOD>]. *)
Definition do_method (env : Env) (m : http_method) : Handler → M unit :=
  match m with
  | M_GET => do_GET env
  | M_POST => do_POST env
  | M_DELETE => do_DELETE env
  | M_OPTIONS => do_OPTIONS env
  | M_PUT => do_PUT env
  | M_TRACE => do_TRACE env
  | M_CONNECT => do_CONNECT env
  | M_HEAD => do_HEAD env
  end.

(** ** The requests sent to the origin *)

(** The [Request] that [urlopen(self.path)] builds: the URL alone. *)
Definition url_request (url : string) : Request :=
  {| full_url := url; req_data := None; req_headers := []; method := None |}.

(** The request [do_POST] builds once [int] has returned [n]. *)
Definition POST_request (self : Handler) (n : Z) : Request :=
  let post_data := read_bytes (rfile self) n in
  {| full_url := path self; req_data := Some post_data;
     req_headers :=
       [ ("Content-Type",
           match msg_get "Content-Type" (headers self) with
           | Some v => VStr v
           | None => VNone
           end);
         ("Content-Length", VInt (Z.of_nat (length post_data))) ];
     method := Some "POST" |}.

(** The request [do_PUT] builds once [int] has returned [n]. *)
Definition PUT_request (self : Handler) (n : Z) : Request :=
  {| full_url := path self; req_data := Some (read_bytes (rfile self) n);
     req_headers := copy_headers (headers self);
     method := Some "PUT" |}.

(** [content_length] in [do_PUT]:
    [int(self.headers.get('Content-Length', 0))]. *)
Definition PUT_content_length (env : Env) (self : Handler) : exn + Z :=
  match msg_get "Content-Length" (headers self) with
  | None => inr 0
  | Some v =>
      match int_str env v with
      | Some n => inr n
      | None => inl (int_ValueError v)
      end
  end.

(** The last value an inbound header list gives to the name [k], the
    name compared exactly. *)
Fixpoint last_value (k : string) (hs : list (string * string)) : option string :=
  match hs with
  | [] => None
  | (header, value) :: hs' =>
      match last_value k hs' with
      | Some v => Some v
      | None => if decide (k = header) then Some value else None
      end
  end.

(** ** The log *)

(** The line [handle_exception] itself puts on the log for a timeout.
    The source string has no [f] prefix, so the braces are literal. *)
Definition timeout_line : string := "* timeout while accessing URL: {self.path} *".

(** The lines that contain "timeout", as [in] compares: case matters. *)
Definition timeout_lines (lines : list string) : list string :=
  filter (fun line => contains "timeout" line) lines.

(** The character [c] occurs in [s]. *)
Fixpoint has_char (c : ascii) (s : string) : bool :=
  match s with
  | EmptyString => false
  | String d s' => bool_decide (d = c) || has_char c s'
  end.

(** Pushing a list of lines, one [put] each, in order. *)
Definition put_all (lines : list string) (g : shared_settings) : shared_settings :=
  foldl (fun g line => queue_put line g) g lines.

(** What producers and the consumer do to the sink, interleaved. *)
Inductive sink_op :=
| Push (line : string)
| Drain.

(** Runs the operations; returns what each drain delivered, in order. *)
Fixpoint run_sink (ops : list sink_op) (g : shared_settings)
  : list (list string) * shared_settings :=
  match ops with
  | [] => ([], g)
  | Push line :: ops' => run_sink ops' (queue_put line g)
  | Drain :: ops' =>
      let '(send_data, g') := data g in
      let '(rest, g'') := run_sink ops' g' in
      (send_data :: rest, g'')
  end.

(** The lines the operations push, in order. *)
Fixpoint pushed (ops : list sink_op) : list string :=
  match ops with
  | [] => []
  | Push line :: ops' => line :: pushed ops'
  | Drain :: ops' => pushed ops'
  end.

(** ** States and requests of the examples *)

(** The client 10.0.0.5 is on the IP blacklist, the IP whitelist is
    empty, and the cache holds an unexpired entry for
    http://example.com/a. *)
Definition blacklisted_state : State :=
  {| ss := {| sse_queue := [];
              cache := {[ "http://example.com/a" :=
                          ({| ce_headers := []; ce_content := Example.hello |}, 2000) ]};
              url_whitelist := []; url_blacklist := [];
              ip_whitelist := []; ip_blacklist := ["10.0.0.5"];
              allow_caching := true; caching_timer := 60 |};
     trace := [] |}.

(** Caching is disabled while the cache still holds an unexpired entry
    for http://example.com/a, from an earlier enabled period. *)
Definition caching_off_state : State :=
  {| ss := {| sse_queue := [];
              cache := {[ "http://example.com/a" :=
                          ({| ce_headers := []; ce_content := list_byte_of_string "old" |},
                           2000) ]};
              url_whitelist := []; url_blacklist := [];
              ip_whitelist := []; ip_blacklist := [];
              allow_caching := false; caching_timer := 60 |};
     trace := [] |}.

(** Caching is enabled and the entry for http://example.com/a (body
    "hello") expires at 1060; the clock of [Example.env] reads 1000. *)
Definition cached_state : State :=
  {| ss := {| sse_queue := [];
              cache := {[ "http://example.com/a" :=
                          ({| ce_headers := [("Content-Type", "text/plain")];
                              ce_content := Example.hello |}, 1060) ]};
              url_whitelist := []; url_blacklist := [];
              ip_whitelist := []; ip_blacklist := [];
              allow_caching := true; caching_timer := 60 |};
     trace := [] |}.



(** ** Clean filter lists *)

(** An entry as [send_filters] stores it: not empty, without space and
    without comma. *)
Definition clean_entry (x : string) : Prop :=
  x ≠ EmptyString ∧ has_char " " x = false ∧ has_char "," x = false.

(** Every character of the text is a space or a comma. *)
Fixpoint blank_text (text : string) : bool :=
  match text with
  | EmptyString => true
  | String c text' =>
      (bool_decide (c = " "%char) || bool_decide (c = ","%char)) && blank_text text'
  end.

(** The form that [index.html] posts when the filters are sent with the
    given four texts. *)
Definition filters_form (ub uw ib iw : string) : gmap string string :=
  {[ "send_filters" := "Send";
     "url_blacklist" := ub; "url_whitelist" := uw;
     "ip_blacklist" := ib; "ip_whitelist" := iw ]}.

(** An admin state of the examples: fresh settings, proxy running. *)
Definition admin0 : admin :=
  {| settings := Example.settings0; proxy_server_running := true; actions := [] |}.

(** ** What a request leaves alone *)

(** The request [do_DELETE] builds. *)
Definition DELETE_request (self : Handler) : Request :=
  {| full_url := path self; req_data := None;
     req_headers := copy_headers (headers self);
     method := Some "DELETE" |}.

(** From [g] to [g']: the filter lists and the caching settings are the
    same, and the log queue has only grown. *)
Definition same_config (g g' : shared_settings) : Prop :=
  url_whitelist g' = url_whitelist g ∧
  url_blacklist g' = url_blacklist g ∧
  ip_whitelist g' = ip_whitelist g ∧
  ip_blacklist g' = ip_blacklist g ∧
  allow_caching g' = allow_caching g ∧
  caching_timer g' = caching_timer g ∧
  sse_queue g `prefix_of` sse_queue g'.

(** From [s] to [s']: the configuration is kept and the trace has only
    grown. *)
Definition config_kept (s s' : State) : Prop :=
  same_config (ss s) (ss s') ∧ trace s `prefix_of` trace s'.

(** From [s] to [s']: the cache is the same. *)
Definition cache_kept (s s' : State) : Prop :=
  cache (ss s') = cache (ss s).

(** A computation that relates every state it starts in to the state it
    ends in, whether it returns or raises. *)
Definition keeps {A} (R : State → State → Prop) (m : M A) : Prop :=
  ∀ s, R s (snd (m s)).

(** The entry a GET stores for a response. *)
Definition cache_data_of (res : Response) (res_content : bytes) : CacheEntry :=
  {| ce_headers := res_headers res; ce_content := res_content |}.

(** An origin that answers every request with status 200 and headers
    and then never delivers the body. *)
Definition stalled_response : Response :=
  {| status := 200; res_headers := [("Content-Length", "5")];
     res_read := inl Example.timed_out |}.

Definition stalling_env : Env :=
  {| urlparse_hostname := Example.hostname; int_str := Example.int;
     url_type := Example.scheme;
     open_request := fun _ => inr stalled_response;
     time := 1000; log_date_time_string := "03/Nov/2026 10:00:00" |}.

(** ** Responses and requests *)

(** A status line sent to the client, by [send_response] or by
    [send_error]. *)
Definition is_response (ev : event) : bool :=
  match ev with SendResponse _ _ | SendError _ _ _ => true | _ => false end.

(** The calls of [urlopen] a method makes for a [Request] it builds
    itself: one when the constructor accepts the URL, none when it
    raises. *)
Definition request_calls (env : Env) (req : Request) : list event :=
  match url_type env (full_url req) with
  | Some _ => [Urlopen req]
  | None => []
  end.

(** The filter lists of the examples of precedence: the rival proxy
    10.0.0.9 is blacklisted, the IP whitelist is empty; example.com is
    on the URL whitelist and on the URL blacklist, ads.example on the
    URL blacklist alone. *)
Definition precedence_state : State :=
  {| ss := {| sse_queue := []; cache := ∅;
              url_whitelist := ["example.com"];
              url_blacklist := ["example.com"; "ads.example"];
              ip_whitelist := []; ip_blacklist := ["10.0.0.9"];
              allow_caching := true; caching_timer := 60 |};
     trace := [] |}.

(** * Properties *)

(** ** Running the monad *)

Ltac munfold :=
  unfold mbind, mret, M_bind, M_ret, try_except, lift, raise, gets, emit,
    modify, sse_queue_put in *.

Lemma bind_run {A B} (m : M A) (k : A → M B) s :
  (m ≫= k) s =
  match m s with
  | (inl e, s') => (inl e, s')
  | (inr a, s') => k a s'
  end.
Proof. reflexivity. Qed.

Lemma try_except_ok {A} (m : M A) h s a s' :
  m s = (inr a, s') → try_except m h s = (inr a, s').
Proof. unfold try_except. by intros ->. Qed.

Lemma try_except_raise {A} (m : M A) h s e s' :
  m s = (inl e, s') → try_except m h s = h e s'.
Proof. unfold try_except. by intros ->. Qed.

(** ** Membership *)

Lemma py_in_true v l : py_in v l = true ↔ member v l.
Proof.
  unfold py_in, member. destruct v as [h|].
  - rewrite bool_decide_eq_true. split; [eauto|]. by intros (? & [= ->] & ?).
  - split; [done|]. by intros (? & ? & ?).
Qed.

Lemma py_in_false v l : py_in v l = false ↔ ¬ member v l.
Proof. rewrite <- py_in_true. by destruct (py_in v l). Qed.


(** ** The filters *)

Lemma filter_request_ip_run self s :
  filter_request_ip self s =
  (inr (filter_decision (ip_whitelist (ss s)) (ip_blacklist (ss s))
          (Some (address_string self))), s).
Proof.
  unfold filter_request_ip, filter_decision, address_string.
  destruct (client_address self) as [client_ip client_port]; simpl.
  munfold.
  destruct (truthy _ && negb _); [done|].
  by destruct (bool_decide _ && negb _).
Qed.

Lemma filter_request_url_run env self s host :
  urlparse_hostname env (path self) = inr host →
  filter_request_url env self s =
  (inr (filter_decision (url_whitelist (ss s)) (url_blacklist (ss s)) host), s).
Proof.
  intros Hparse. unfold filter_request_url, filter_decision. munfold.
  rewrite Hparse.
  destruct (truthy _ && negb _); [done|].
  by destruct (py_in host _ && negb _).
Qed.

Lemma filter_request_url_raise env self s e :
  urlparse_hostname env (path self) = inl e →
  filter_request_url env self s = (inl e, s).
Proof. intros Hparse. unfold filter_request_url. munfold. by rewrite Hparse. Qed.

Lemma filter_decision_precedence wl bl v :
  whitelist_precedence wl bl v (filter_decision wl bl v).
Proof.
  unfold whitelist_precedence, filter_decision.
  rewrite <- !py_in_true.
  destruct wl as [|w wl'] eqn:Hwl.
  - assert (py_in v [] = false) as ->.
    { apply py_in_false. intros (h & _ & Hin). by apply elem_of_nil in Hin. }
    simpl. destruct (py_in v bl); simpl; intuition congruence.
  - rewrite <- Hwl. assert (truthy wl = true) as -> by by subst.
    assert (wl ≠ []) by by subst.
    destruct (py_in v wl), (py_in v bl); simpl; intuition congruence.
Qed.

(** What the decorator does, case by case. *)
Lemma filter_and_exceptions_run env func self s :
  filter_and_exceptions env func self s =
  if filter_decision (ip_whitelist (ss s)) (ip_blacklist (ss s))
       (Some (address_string self))
  then
    match urlparse_hostname env (path self) with
    | inl e => handle_exception env self e s
    | inr host =>
        if filter_decision (url_whitelist (ss s)) (url_blacklist (ss s)) host
        then try_except (func self) (handle_exception env self) s
        else send_error env self 403 "Access Denied" None s
    end
  else send_error env self 403 "Access Denied" None s.
Proof.
  unfold filter_and_exceptions, try_except at 1.
  rewrite bind_run, filter_request_ip_run.
  destruct (filter_decision (ip_whitelist _) _ _); simpl.
  - rewrite bind_run.
    destruct (urlparse_hostname env (path self)) as [e|host] eqn:Hparse.
    + by rewrite (filter_request_url_raise _ _ _ _ Hparse).
    + rewrite (filter_request_url_run _ _ _ _ Hparse).
      destruct (filter_decision (url_whitelist _) _ _); simpl; [done|].
      reflexivity.
  - reflexivity.
Qed.

Lemma send_error_run env self code message explain s :
  send_error env self code message explain s =
  (inr tt,
   {| ss := queue_put (access_line env self code)
              (queue_put (error_line env self code message) (ss s));
      trace := trace s ++ [SendError code message explain] |}).
Proof. reflexivity. Qed.

Lemma send_response_run env self code message s :
  send_response env self code message s =
  (inr tt,
   {| ss := queue_put (access_line env self code) (ss s);
      trace := trace s ++ [SendResponse code message] |}).
Proof. reflexivity. Qed.

Lemma filter_passes_run env func self s :
  filter_passes env self s →
  filter_and_exceptions env func self s =
  try_except (func self) (handle_exception env self) s.
Proof.
  intros [Hip Hurl]. rewrite filter_and_exceptions_run.
  rewrite filter_request_ip_run in Hip. injection Hip as ->.
  destruct (urlparse_hostname env (path self)) as [e|host] eqn:Hparse.
  - by rewrite (filter_request_url_raise _ _ _ _ Hparse) in Hurl.
  - rewrite (filter_request_url_run _ _ _ _ Hparse) in Hurl.
    by injection Hurl as ->.
Qed.

Lemma filter_rejects_run env func self s :
  filter_rejects env self s →
  filter_and_exceptions env func self s =
  send_error env self 403 "Access Denied" None s.
Proof.
  unfold filter_rejects. intros Hrej. rewrite filter_and_exceptions_run.
  rewrite !filter_request_ip_run in Hrej.
  destruct Hrej as [Hip|[Hip Hurl]]; injection Hip as ->; [done|].
  destruct (urlparse_hostname env (path self)) as [e|host] eqn:Hparse.
  - by rewrite (filter_request_url_raise _ _ _ _ Hparse) in Hurl.
  - rewrite (filter_request_url_run _ _ _ _ Hparse) in Hurl.
    by injection Hurl as ->.
Qed.

(** C1. Whitelist precedence holds for the client IP and for the target
    hostname, each on its own lists: a non-empty whitelist that lacks the
    value rejects it whatever the blacklist; with an empty whitelist a
    blacklisted value is rejected; a value in both lists is allowed.  The
    decorated method runs only when both filters returned [True];
    otherwise the answer is 403. *)
Theorem filter_whitelist_precedence env self s host :
  urlparse_hostname env (path self) = inr host →
  ∃ ip_ok url_ok : bool,
    filter_request_ip self s = (inr ip_ok, s) ∧
    filter_request_url env self s = (inr url_ok, s) ∧
    whitelist_precedence (ip_whitelist (ss s)) (ip_blacklist (ss s))
      (Some (address_string self)) ip_ok ∧
    whitelist_precedence (url_whitelist (ss s)) (url_blacklist (ss s))
      host url_ok ∧
    ∀ func,
      filter_and_exceptions env func self s =
      if ip_ok && url_ok
      then try_except (func self) (handle_exception env self) s
      else send_error env self 403 "Access Denied" None s.
Proof.
  intros Hparse.
  eexists _, _. split; [apply filter_request_ip_run|].
  split; [by apply filter_request_url_run|].
  split; [apply filter_decision_precedence|].
  split; [apply filter_decision_precedence|].
  intros func. rewrite filter_and_exceptions_run, Hparse.
  by destruct (filter_decision (ip_whitelist _) _ _),
              (filter_decision (url_whitelist _) _ _).
Qed.

(** C1, at three requests under lists that are not empty: a hostname on
    both URL lists is allowed, a hostname on neither is rejected by the
    whitelist alone, and a blacklisted client is rejected while the IP
    whitelist is empty. *)
Lemma filter_whitelist_precedence_witness :
  let s := precedence_state in
  let listed := Example.client "10.0.0.5" "GET" "http://example.com/a" [] [] in
  let unlisted := Example.client "10.0.0.5" "GET" "http://other.org/" [] [] in
  let banned := Example.client "10.0.0.9" "GET" "http://example.com/a" [] [] in
  (filter_request_ip listed s = (inr true, s) ∧
   filter_request_url Example.env listed s = (inr true, s) ∧
   ∀ func, filter_and_exceptions Example.env func listed s =
           try_except (func listed) (handle_exception Example.env listed) s) ∧
  (filter_request_url Example.env unlisted s = (inr false, s) ∧
   ∀ func, filter_and_exceptions Example.env func unlisted s =
           send_error Example.env unlisted 403 "Access Denied" None s) ∧
  (filter_request_ip banned s = (inr false, s) ∧
   ∀ func, filter_and_exceptions Example.env func banned s =
           send_error Example.env banned 403 "Access Denied" None s).
Proof.
  intros s listed unlisted banned.
  assert (∀ v l, py_in v l = true → member v l) as Hin
    by (intros v l; apply py_in_true).
  assert (∀ v l, py_in v l = false → ¬ member v l) as Hout
    by (intros v l; apply py_in_false).
  split; [|split].
  - destruct (filter_whitelist_precedence Example.env listed s (Some "example.com")
                eq_refl)
      as (ip_ok & url_ok & Hip & Hurl & (_ & _ & _ & Pip) & (_ & _ & Purl & _) & Hrun).
    assert (ip_ok = true) as ->.
    { apply Pip. right. split; [reflexivity|]. by apply Hout. }
    assert (url_ok = true) as -> by (apply Purl; by apply Hin).
    done.
  - destruct (filter_whitelist_precedence Example.env unlisted s (Some "other.org")
                eq_refl)
      as (ip_ok & url_ok & _ & Hurl & _ & (Purl & _) & Hrun).
    assert (url_ok = false) as -> by (apply Purl; [discriminate|by apply Hout]).
    split; [done|]. intros func. rewrite Hrun. by destruct ip_ok.
  - destruct (filter_whitelist_precedence Example.env banned s (Some "example.com")
                eq_refl)
      as (ip_ok & url_ok & Hip & _ & (_ & Pip & _) & _ & Hrun).
    assert (ip_ok = false) as -> by (apply Pip; [reflexivity|by apply Hin]).
    done.
Defined.

(** ** Rejection *)

Lemma new_events_app {A} (m : M A) s (evs : list event) :
  trace (snd (m s)) = trace s ++ evs → new_events m s = evs.
Proof. unfold new_events. intros ->. by rewrite drop_app_length. Qed.

(** C5. When the filter rejects the client IP or the target hostname, the
    decorated method answers 403 "Access Denied" and does nothing else on
    the outside world: no [urlopen], no [cache.get], no [cache.set]; the
    cache is left as it was. *)
Theorem rejected_request_403 env func self s :
  filter_rejects env self s →
  let r := filter_and_exceptions env func self s in
  fst r = inr tt ∧
  new_events (filter_and_exceptions env func self) s =
    [SendError 403 "Access Denied" None] ∧
  filter is_forward (new_events (filter_and_exceptions env func self) s) = [] ∧
  filter is_cache_op (new_events (filter_and_exceptions env func self) s) = [] ∧
  cache (ss (snd r)) = cache (ss s).
Proof.
  intros Hrej r. subst r.
  assert (new_events (filter_and_exceptions env func self) s =
          [SendError 403 "Access Denied" None]) as Hnew.
  { apply new_events_app. by rewrite (filter_rejects_run _ _ _ _ Hrej). }
  rewrite Hnew, (filter_rejects_run _ _ _ _ Hrej). done.
Qed.

(** C5, at the scenario of the specification: client 10.0.0.5,
    ip-blacklist [10.0.0.5], empty ip-whitelist, a GET whose URL is in
    the cache. *)
Lemma rejected_request_403_witness :
  let self := Example.client "10.0.0.5" "GET" "http://example.com/a" [] [] in
  let r := do_GET Example.env self blacklisted_state in
  fst r = inr tt ∧
  new_events (do_GET Example.env self) blacklisted_state =
    [SendError 403 "Access Denied" None] ∧
  filter is_forward (new_events (do_GET Example.env self) blacklisted_state) = [] ∧
  filter is_cache_op (new_events (do_GET Example.env self) blacklisted_state) = [] ∧
  cache (ss (snd r)) = cache (ss blacklisted_state).
Proof.
  apply (rejected_request_403 Example.env (GET Example.env)
           (Example.client "10.0.0.5" "GET" "http://example.com/a" [] [])
           blacklisted_state).
  left. reflexivity.
Defined.

(** ** Every method is decorated *)

Lemma do_method_decorated env m :
  do_method env m = filter_and_exceptions env (method_body env m).
Proof. by destruct m. Qed.

(** What [handle_exception] can send: at most one error response, and one
    without explanation text only with status 400, 504, 502 or 500. *)
Lemma handle_exception_events env self e s :
  ∃ evs : list event,
    trace (snd (handle_exception env self e s)) = trace s ++ evs ∧
    ∀ ev, ev ∈ evs →
      ∃ code message explain, ev = SendError code message explain ∧
        (explain = None → code ∈ [400; 504; 502; 500]).
Proof.
  unfold handle_exception, send_error_reason.
  repeat match goal with
         | |- context [if isinstance e ?c then _ else _] =>
             destruct (isinstance e c)
         end;
    try destruct (e_reason e);
    (eexists; split;
     [ first [ rewrite send_error_run; simpl; reflexivity
             | rewrite bind_run; simpl; reflexivity
             | simpl; symmetry; apply app_nil_r ]
     | intros ev Hev;
       first [ by apply elem_of_nil in Hev
             | apply list_elem_of_singleton in Hev as ->;
               eexists _, _, _; split; [reflexivity|];
               first [ discriminate | intros _; repeat constructor ] ] ]).
Qed.

Lemma filter_passes_dec env self s :
  filter_passes env self s ∨ ¬ filter_passes env self s.
Proof.
  unfold filter_passes. rewrite filter_request_ip_run.
  destruct (filter_decision (ip_whitelist _) _ _); [|right; by intros [[=] _]].
  destruct (urlparse_hostname env (path self)) as [e|host] eqn:Hparse.
  - rewrite (filter_request_url_raise _ _ _ _ Hparse). right. by intros [_ [=]].
  - rewrite (filter_request_url_run _ _ _ _ Hparse).
    destruct (filter_decision (url_whitelist _) _ _); [by left|].
    right. by intros [_ [=]].
Qed.

(** When the body runs, the decorator has evaluated both filters, in
    this order, and both returned [True]; in every other case the result
    does not depend on the body. *)
Lemma body_independent env self s :
  ¬ filter_passes env self s →
  ∀ func func',
    filter_and_exceptions env func self s = filter_and_exceptions env func' self s.
Proof.
  intros Hno func func'. rewrite !filter_and_exceptions_run.
  destruct (filter_decision (ip_whitelist _) _ _) eqn:Hip; [|done].
  destruct (urlparse_hostname env (path self)) as [e|host] eqn:Hparse; [done|].
  destruct (filter_decision (url_whitelist _) _ _) eqn:Hurl; [|done].
  destruct Hno. split.
  - by rewrite filter_request_ip_run, Hip.
  - by rewrite (filter_request_url_run _ _ _ _ Hparse), Hurl.
Qed.

Lemma not_passes_events env func self s :
  ¬ filter_passes env self s →
  ∃ evs : list event,
    trace (snd (filter_and_exceptions env func self s)) = trace s ++ evs ∧
    ∀ ev, ev ∈ evs →
      ∃ code message explain, ev = SendError code message explain ∧
        (explain = None → code ∈ [400; 504; 502; 500; 403]).
Proof.
  intros Hno. rewrite filter_and_exceptions_run.
  assert (∃ evs : list event,
    trace (snd (send_error env self 403 "Access Denied" None s)) = trace s ++ evs ∧
    ∀ ev, ev ∈ evs →
      ∃ code message explain, ev = SendError code message explain ∧
        (explain = None → code ∈ [400; 504; 502; 500; 403])) as H403.
  { eexists. split; [by rewrite send_error_run|].
    intros ev ->%list_elem_of_singleton. eexists _, _, _. split; [done|].
    intros _. repeat constructor. }
  destruct (filter_decision (ip_whitelist _) _ _) eqn:Hip; [|done].
  destruct (urlparse_hostname env (path self)) as [e|host] eqn:Hparse.
  - destruct (handle_exception_events env self e s) as (evs & Htr & Hevs).
    exists evs. split; [done|]. intros ev Hev.
    destruct (Hevs ev Hev) as (c & m & x & -> & Hc).
    eexists _, _, _. split; [done|]. intros Hx. specialize (Hc Hx).
    revert Hc. rewrite !elem_of_cons. tauto.
  - destruct (filter_decision (url_whitelist _) _ _) eqn:Hurl; [|done].
    destruct Hno. split.
    + by rewrite filter_request_ip_run, Hip.
    + by rewrite (filter_request_url_run _ _ _ _ Hparse), Hurl.
Qed.

(** C10. Each of the eight [do_<METHOD>] is its body under the decorator.
    When the filter rejects, the answer is 403 and the body has no part
    in the result; the body runs only after the IP filter and then the
    URL filter both returned [True].  In particular the 200 of OPTIONS
    and the 405 of TRACE and CONNECT are sent only when the filter
    passes. *)
Theorem every_method_filtered env (m : http_method) self s :
  do_method env m = filter_and_exceptions env (method_body env m) ∧
  (filter_rejects env self s →
     do_method env m self s = send_error env self 403 "Access Denied" None s ∧
     new_events (do_method env m self) s = [SendError 403 "Access Denied" None]) ∧
  (filter_passes env self s →
     do_method env m self s =
     try_except (method_body env m self) (handle_exception env self) s) ∧
  (¬ filter_passes env self s →
     ∀ func, do_method env m self s = filter_and_exceptions env func self s) ∧
  (SendResponse 200 None ∈ new_events (do_OPTIONS env self) s →
     filter_passes env self s) ∧
  (SendError 405 "Method Not Allowed" None ∈ new_events (do_TRACE env self) s →
     filter_passes env self s) ∧
  (SendError 405 "Method Not Allowed" None ∈ new_events (do_CONNECT env self) s →
     filter_passes env self s).
Proof.
  rewrite do_method_decorated.
  split; [done|].
  split.
  { intros Hrej. rewrite (filter_rejects_run _ _ _ _ Hrej). split; [done|].
    apply new_events_app. by rewrite (filter_rejects_run _ _ _ _ Hrej). }
  split; [apply filter_passes_run|].
  split; [intros Hno func; by apply body_independent|].
  assert (∀ func ev,
    ev ∈ new_events (filter_and_exceptions env func self) s →
    (∀ code message explain, ev = SendError code message explain →
       explain = None ∧ code ∉ [400; 504; 502; 500; 403]) →
    filter_passes env self s) as Hkey.
  { intros func ev Hev Hshape.
    destruct (filter_passes_dec env self s) as [Hp|Hno]; [done|].
    destruct (not_passes_events env func self s Hno) as (evs & Htr & Hevs).
    rewrite (new_events_app _ _ _ Htr) in Hev.
    destruct (Hevs ev Hev) as (c & msg & x & -> & Hc).
    destruct (Hshape _ _ _ eq_refl) as [-> Hnot]. destruct Hnot. by apply Hc. }
  split; [|split]; intros Hev; (eapply Hkey; [exact Hev|]);
    intros code message explain Heq; try discriminate Heq;
    injection Heq as <- <- <-; (split; [done|]);
    intros Hin;
    repeat (apply elem_of_cons in Hin as [Hin|Hin]; [discriminate Hin|]);
    by apply elem_of_nil in Hin.
Qed.

(** ** GET and the cache *)

Lemma send_headers_run hs s :
  send_headers hs s =
  (inr tt, {| ss := ss s; trace := trace s ++ header_events hs |}).
Proof.
  revert s. induction hs as [|[header value] hs IH]; intros s.
  - simpl. rewrite app_nil_r. by destruct s.
  - unfold send_headers in *. simpl. rewrite bind_run. simpl.
    rewrite IH. simpl. by rewrite <- app_assoc.
Qed.

(** One step of a sequence whose first action always returns. *)
Ltac mstep :=
  rewrite bind_run;
  first [ rewrite send_headers_run | rewrite send_response_run
        | rewrite send_error_run | idtac ];
  simpl.

Ltac msteps :=
  repeat mstep;
  unfold end_headers, wfile_write, send_header, emit; simpl.

Lemma cache_get_run env key s :
  cache_get env key s =
  (inr (cache_lookup (time env) key (cache (ss s))),
   {| ss := ss s; trace := trace s ++ [CacheGet key] |}).
Proof. reflexivity. Qed.

(** [GET] on the forwarding branch with caching disabled. *)
Lemma GET_disabled_run env self s :
  allow_caching (ss s) = false →
  GET env self s =
  let s1 := {| ss := ss s;
               trace := trace s ++ [CacheGet (path self); Urlopen (url_request (path self))] |} in
  match urlopen env (url_request (path self)) with
  | inl e => (inl e, s1)
  | inr res =>
      match res_read res with
      | inl e => (inl e, s1)
      | inr res_content =>
          (inr tt,
           {| ss := queue_put (access_line env self (status res)) (ss s);
              trace := trace s ++
                [CacheGet (path self); Urlopen (url_request (path self));
                 SendResponse (status res) None] ++
                header_events (res_headers res) ++
                [EndHeaders; WfileWrite res_content] |})
      end
  end.
Proof.
  intros Hoff. unfold GET. rewrite bind_run, cache_get_run. simpl.
  rewrite bind_run. unfold gets at 1. simpl. rewrite Hoff.
  assert (∀ k : M unit,
    match cache_lookup (time env) (path self) (cache (ss s)) with
    | Some _ | _ => k end = k) as -> by (intros k; by destruct (cache_lookup _ _ _)).
  unfold urlopen_url, do_urlopen, url_request. rewrite !bind_run. simpl.
  rewrite <- app_assoc. simpl.
  destruct (urlopen env _) as [e|res]; simpl; [done|].
  rewrite bind_run. unfold read, lift. simpl.
  destruct (res_read res) as [e|res_content]; simpl; [done|].
  rewrite bind_run. unfold gets at 1. simpl. rewrite Hoff.
  msteps. do 2 f_equal. rewrite <- !app_assoc. reflexivity.
Qed.

(** [GET] on a hit. *)
Lemma GET_hit_run env self s cached :
  allow_caching (ss s) = true →
  cache_lookup (time env) (path self) (cache (ss s)) = Some cached →
  GET env self s =
  (inr tt,
   {| ss := queue_put (access_line env self 200)
              (queue_put ("* sent data from cache " +:+ path self +:+ " *") (ss s));
      trace := trace s ++
        [CacheGet (path self); SendResponse 200 (Some "OK (from cache)")] ++
        header_events (ce_headers cached) ++
        [EndHeaders; WfileWrite (ce_content cached)] |}).
Proof.
  intros Hon Hhit. unfold GET. rewrite bind_run, cache_get_run. simpl.
  rewrite bind_run. unfold gets at 1. simpl. rewrite Hon, Hhit.
  msteps. do 2 f_equal. rewrite <- !app_assoc. reflexivity.
Qed.

(** [handle_exception] never touches the cache. *)
Lemma handle_exception_cache env self e s :
  cache (ss (snd (handle_exception env self e s))) = cache (ss s).
Proof.
  unfold handle_exception, send_error_reason.
  repeat match goal with
         | |- context [if isinstance e ?c then _ else _] =>
             destruct (isinstance e c)
         end; try destruct (e_reason e); reflexivity.
Qed.

Lemma filter_SendError (P : event → bool) (evs : list event) :
  (∀ code message explain, P (SendError code message explain) = false) →
  (∀ ev, ev ∈ evs → ∃ code message explain, ev = SendError code message explain) →
  filter P evs = [].
Proof.
  intros HP Hevs. induction evs as [|ev evs IH]; [done|].
  destruct (Hevs ev) as (c & m & x & ->); [left|].
  rewrite filter_cons, HP. simpl. apply IH. intros ev' Hin. apply Hevs. by right.
Qed.

Lemma do_GET_disabled_run env self s :
  filter_passes env self s →
  allow_caching (ss s) = false →
  do_GET env self s =
  let s1 := {| ss := ss s;
               trace := trace s ++ [CacheGet (path self); Urlopen (url_request (path self))] |} in
  match urlopen env (url_request (path self)) with
  | inl e => handle_exception env self e s1
  | inr res =>
      match res_read res with
      | inl e => handle_exception env self e s1
      | inr res_content =>
          (inr tt,
           {| ss := queue_put (access_line env self (status res)) (ss s);
              trace := trace s ++
                [CacheGet (path self); Urlopen (url_request (path self));
                 SendResponse (status res) None] ++
                header_events (res_headers res) ++
                [EndHeaders; WfileWrite res_content] |})
      end
  end.
Proof.
  intros Hpass Hoff. unfold do_GET. rewrite (filter_passes_run _ _ _ _ Hpass).
  unfold try_except. rewrite (GET_disabled_run _ _ _ Hoff). simpl.
  destruct (urlopen env _) as [e|res]; [done|].
  by destruct (res_read res).
Qed.

Lemma filter_header_events (P : event → bool) hs :
  (∀ header value, P (SendHeader header value) = false) →
  filter P (header_events hs) = [].
Proof.
  intros HP. induction hs as [|[header value] hs IH]; [done|].
  simpl. by rewrite filter_cons, HP.
Qed.

(** After [CacheGet; Urlopen], what [handle_exception] adds holds no
    further cache operation and no further forward. *)
Lemma disabled_raise_events env self e s :
  let s1 := {| ss := ss s;
               trace := trace s ++ [CacheGet (path self); Urlopen (url_request (path self))] |} in
  ∃ evs : list event,
    trace (snd (handle_exception env self e s1)) =
      trace s ++ [CacheGet (path self); Urlopen (url_request (path self))] ++ evs ∧
    filter is_cache_op evs = [] ∧ filter is_forward evs = [].
Proof.
  intros s1.
  destruct (handle_exception_events env self e s1) as (evs & Htr & Hevs).
  exists evs. split; [by rewrite Htr; simpl; rewrite <- app_assoc|].
  split; apply filter_SendError; try done;
    intros ev Hev; destruct (Hevs ev Hev) as (c & m & x & -> & _); eauto.
Qed.

(** C2, as amended.  With caching disabled a GET that passes the filter
    still calls [cache.get] once, on its URL, before anything else, and
    ignores the answer: [cache.set] is not called, the cache is left as
    it was, [urlopen] is called exactly once, and what the origin answers
    is what the client is sent, whether or not the cache holds an entry
    for the URL. *)
Theorem caching_disabled_get env self s :
  filter_passes env self s →
  allow_caching (ss s) = false →
  let evs := new_events (do_GET env self) s in
  filter is_cache_op evs = [CacheGet (path self)] ∧
  filter is_forward evs = [Urlopen (url_request (path self))] ∧
  cache (ss (snd (do_GET env self s))) = cache (ss s) ∧
  ∀ res res_content,
    urlopen env (url_request (path self)) = inr res →
    res_read res = inr res_content →
    evs = [CacheGet (path self); Urlopen (url_request (path self));
           SendResponse (status res) None] ++
          header_events (res_headers res) ++
          [EndHeaders; WfileWrite res_content].
Proof.
  intros Hpass Hoff evs. subst evs.
  pose proof (do_GET_disabled_run env self s Hpass Hoff) as Hrun. simpl in Hrun.
  destruct (urlopen env _) as [e|res] eqn:Hopen;
    [|destruct (res_read res) as [e|res_content] eqn:Hread].
  1,2: destruct (disabled_raise_events env self e s) as (evs & Htr & Hc & Hf);
       simpl in Htr; rewrite <- Hrun in Htr;
       rewrite (new_events_app _ _ _ Htr), Hrun, handle_exception_cache;
       simpl; rewrite !filter_cons; simpl; rewrite Hc, Hf;
       repeat split; try done; intros ? ? [=]; congruence.
  assert (new_events (do_GET env self) s =
          [CacheGet (path self); Urlopen (url_request (path self));
           SendResponse (status res) None] ++
          header_events (res_headers res) ++
          [EndHeaders; WfileWrite res_content]) as Hnew.
  { apply new_events_app. by rewrite Hrun. }
  rewrite Hnew, Hrun. simpl.
  rewrite !filter_cons, !filter_app, !filter_header_events by done. simpl.
  repeat split; try done.
  intros ? ? [= <-] Hr. rewrite Hread in Hr. by injection Hr as <-.
Qed.

(** C2, at a GET for a URL the cache holds an unexpired entry for. *)
Lemma caching_disabled_get_witness :
  let self := Example.client "10.0.0.5" "GET" "http://example.com/a" [] [] in
  let evs := new_events (do_GET Example.env self) caching_off_state in
  filter is_cache_op evs = [CacheGet "http://example.com/a"] ∧
  filter is_forward evs = [Urlopen (url_request "http://example.com/a")] ∧
  cache (ss (snd (do_GET Example.env self caching_off_state))) =
    cache (ss caching_off_state) ∧
  ∀ res res_content,
    urlopen Example.env (url_request "http://example.com/a") = inr res →
    res_read res = inr res_content →
    evs = [CacheGet "http://example.com/a";
           Urlopen (url_request "http://example.com/a");
           SendResponse (status res) None] ++
          header_events (res_headers res) ++
          [EndHeaders; WfileWrite res_content].
Proof.
  apply (caching_disabled_get Example.env
           (Example.client "10.0.0.5" "GET" "http://example.com/a" [] [])
           caching_off_state).
  - split; reflexivity.
  - reflexivity.
Defined.

(** C2 as stated fails: with caching disabled and the filter passed,
    [cache.get] is invoked. *)
Lemma caching_disabled_get_reads_cache :
  let self := Example.client "10.0.0.5" "GET" "http://example.com/a" [] [] in
  allow_caching (ss caching_off_state) = false ∧
  new_events (do_GET Example.env self) caching_off_state =
    [CacheGet "http://example.com/a";
     Urlopen (url_request "http://example.com/a");
     SendResponse 200 None;
     SendHeader "Content-Type" "text/plain";
     EndHeaders;
     WfileWrite Example.hello] ∧
  ¬ (filter is_cache_op (new_events (do_GET Example.env self) caching_off_state) = []).
Proof. vm_compute. repeat split. discriminate. Qed.

(** C3. With caching enabled and an unexpired entry for the request's
    URL in the cache, [GET] answers 200 with the reason "OK (from
    cache)", replays the stored headers and the stored body as they are,
    puts the cache-hit line on the log queue, and does not call
    [urlopen].  The decorated [do_GET] does exactly this whenever the
    filter passes. *)
Theorem cache_hit_get env self s cached expire_time :
  allow_caching (ss s) = true →
  cache (ss s) !! path self = Some (cached, expire_time) →
  time env < expire_time →
  let evs := new_events (GET env self) s in
  let r := GET env self s in
  fst r = inr tt ∧
  evs = [CacheGet (path self); SendResponse 200 (Some "OK (from cache)")] ++
        header_events (ce_headers cached) ++
        [EndHeaders; WfileWrite (ce_content cached)] ∧
  filter is_forward evs = [] ∧
  sse_queue (ss (snd r)) =
    sse_queue (ss s) ++
    ["* sent data from cache " +:+ path self +:+ " *"; access_line env self 200] ∧
  cache (ss (snd r)) = cache (ss s) ∧
  (filter_passes env self s → do_GET env self s = r).
Proof.
  intros Hon Hentry Hfresh evs r. subst evs r.
  assert (cache_lookup (time env) (path self) (cache (ss s)) = Some cached) as Hhit.
  { unfold cache_lookup. rewrite Hentry.
    by destruct (Z.ltb_spec (time env) expire_time); [|lia]. }
  pose proof (GET_hit_run env self s cached Hon Hhit) as Hrun.
  assert (new_events (GET env self) s =
          [CacheGet (path self); SendResponse 200 (Some "OK (from cache)")] ++
          header_events (ce_headers cached) ++
          [EndHeaders; WfileWrite (ce_content cached)]) as Hnew.
  { apply new_events_app. by rewrite Hrun. }
  rewrite Hnew, Hrun. simpl.
  rewrite !filter_cons, !filter_app, !filter_header_events by done. simpl.
  rewrite <- app_assoc. repeat split; try done.
  intros Hpass. unfold do_GET. rewrite (filter_passes_run _ _ _ _ Hpass).
  by apply try_except_ok.
Qed.

(** C3, at the second request of the scenario: the entry for
    http://example.com/a (body "hello") has not expired. *)
Lemma cache_hit_get_witness :
  let self := Example.client "10.0.0.5" "GET" "http://example.com/a" [] [] in
  let evs := new_events (GET Example.env self) cached_state in
  let r := GET Example.env self cached_state in
  fst r = inr tt ∧
  evs = [CacheGet "http://example.com/a"; SendResponse 200 (Some "OK (from cache)");
         SendHeader "Content-Type" "text/plain";
         EndHeaders; WfileWrite Example.hello] ∧
  filter is_forward evs = [] ∧
  sse_queue (ss (snd r)) =
    [] ++
    ["* sent data from cache http://example.com/a *";
     access_line Example.env self 200] ∧
  cache (ss (snd r)) = cache (ss cached_state) ∧
  (filter_passes Example.env self cached_state →
   do_GET Example.env self cached_state = r).
Proof.
  apply (cache_hit_get Example.env
           (Example.client "10.0.0.5" "GET" "http://example.com/a" [] [])
           cached_state
           {| ce_headers := [("Content-Type", "text/plain")];
              ce_content := Example.hello |} 1060).
  - reflexivity.
  - reflexivity.
  - reflexivity.
Defined.

(** ** Exceptions and the log *)

Lemma logged_app {A} (m : M A) s (lines : list string) :
  sse_queue (ss (snd (m s))) = sse_queue (ss s) ++ lines → logged m s = lines.
Proof. unfold logged. intros ->. by rewrite drop_app_length. Qed.

Lemma prefix_app_sep w a c b :
  has_char c w = false →
  String.prefix w (a +:+ String c b) = String.prefix w a.
Proof.
  revert w. induction a as [|y a IH]; intros [|x w] Hc; simpl in *; try done.
  - apply orb_false_elim in Hc as [Hx _]. apply bool_decide_eq_false in Hx.
    by destruct (ascii_dec x c).
  - apply orb_false_elim in Hc as [_ Hw].
    destruct (ascii_dec x y); [by apply IH|done].
Qed.

Lemma contains_cons w y hay :
  contains w (String y hay) = String.prefix w (String y hay) || contains w hay.
Proof. reflexivity. Qed.

(** A needle without the separator [c] cannot straddle it. *)
Lemma contains_app_sep w a c b :
  has_char c w = false →
  contains w (a +:+ String c b) = contains w a || contains w b.
Proof.
  intros Hc. induction a as [|y a IH].
  - pose proof (prefix_app_sep w EmptyString c b Hc) as Hp.
    change (EmptyString +:+ String c b) with (String c b) in *.
    rewrite contains_cons, Hp.
    change (contains w EmptyString) with (String.prefix w EmptyString || false).
    by rewrite orb_false_r.
  - pose proof (prefix_app_sep w (String y a) c b Hc) as Hp.
    change (String y a +:+ String c b) with (String y (a +:+ String c b)) in *.
    by rewrite !contains_cons, Hp, IH, !orb_assoc.
Qed.

Lemma contains_log_line w date address message :
  has_char " " w = false →
  contains w (date +:+ " " +:+ address +:+ " " +:+ message) =
  contains w date || contains w address || contains w message.
Proof.
  intros Hc.
  change (date +:+ " " +:+ address +:+ " " +:+ message)
    with (date +:+ String " " (address +:+ String " " message)).
  by rewrite !(contains_app_sep _ _ _ _ Hc), orb_assoc.
Qed.

Lemma contains_quoted w a rest :
  has_char (ascii_of_nat 34) w = false →
  contains w (dquote +:+ a +:+ dquote +:+ rest) =
  contains w EmptyString || contains w a || contains w rest.
Proof.
  intros Hc.
  change (dquote +:+ a +:+ dquote +:+ rest)
    with (EmptyString +:+ String (ascii_of_nat 34) (a +:+ String (ascii_of_nat 34) rest)).
  by rewrite !(contains_app_sep _ _ _ _ Hc), orb_assoc.
Qed.

(** Which of the lines of a timeout contain "timeout". *)
Lemma timeout_in_error_line env self :
  contains "timeout" (log_date_time_string env) = false →
  contains "timeout" (address_string self) = false →
  contains "timeout" (error_line env self 504 "Gateway Timeout") = false.
Proof.
  intros Hd Ha. unfold error_line.
  rewrite contains_log_line, Hd, Ha by reflexivity. reflexivity.
Qed.

Lemma timeout_in_access_line env self :
  contains "timeout" (log_date_time_string env) = false →
  contains "timeout" (address_string self) = false →
  contains "timeout" (access_line env self 504) =
  contains "timeout" (requestline self).
Proof.
  intros Hd Ha. unfold access_line.
  rewrite contains_log_line, Hd, Ha by reflexivity.
  rewrite contains_quoted by reflexivity.
  simpl (contains "timeout" EmptyString).
  change (contains "timeout" (" " +:+ str_Z 504 +:+ " -")) with false.
  simpl. by rewrite orb_false_r.
Qed.

Lemma handle_exception_timeout env self e s :
  isinstance e TimeoutError = true →
  handle_exception env self e s =
  (inr tt,
   {| ss := queue_put (access_line env self 504)
              (queue_put (error_line env self 504 "Gateway Timeout")
                 (queue_put timeout_line (ss s)));
      trace := trace s ++ [SendError 504 "Gateway Timeout" None] |}).
Proof.
  unfold handle_exception, isinstance.
  by destruct (e_class e).
Qed.

(** ** What is sent to the origin *)

(** [GET] on the forwarding branch: caching disabled, or no unexpired
    entry. *)
Lemma GET_forward_run env self s :
  allow_caching (ss s) = false ∨
  cache_lookup (time env) (path self) (cache (ss s)) = None →
  GET env self s =
  let s1 := {| ss := ss s;
               trace := trace s ++ [CacheGet (path self); Urlopen (url_request (path self))] |} in
  match urlopen env (url_request (path self)) with
  | inl e => (inl e, s1)
  | inr res =>
      match res_read res with
      | inl e => (inl e, s1)
      | inr res_content =>
          let cache_data :=
            {| ce_headers := res_headers res; ce_content := res_content |} in
          (inr tt,
           {| ss := queue_put (access_line env self (status res))
                      (if allow_caching (ss s)
                       then set_cache
                              (cache_store (time env) (path self) cache_data
                                 (caching_timer (ss s)) (cache (ss s))) (ss s)
                       else ss s);
              trace := trace s ++
                [CacheGet (path self); Urlopen (url_request (path self))] ++
                (if allow_caching (ss s)
                 then [CacheSet (path self) cache_data (caching_timer (ss s))]
                 else []) ++
                [SendResponse (status res) None] ++
                header_events (res_headers res) ++
                [EndHeaders; WfileWrite res_content] |})
      end
  end.
Proof.
  intros [Hoff|Hnone].
  { rewrite (GET_disabled_run _ _ _ Hoff), Hoff. reflexivity. }
  unfold GET. rewrite bind_run, cache_get_run. simpl.
  rewrite bind_run. unfold gets at 1. simpl. rewrite Hnone.
  unfold urlopen_url, do_urlopen, url_request. rewrite !bind_run. simpl.
  rewrite <- app_assoc. simpl.
  destruct (urlopen env _) as [e|res]; simpl; [done|].
  rewrite bind_run. unfold read, lift. simpl.
  destruct (res_read res) as [e|res_content]; simpl; [done|].
  rewrite bind_run. unfold gets at 1. simpl.
  destruct (allow_caching (ss s)).
  - rewrite bind_run. unfold gets at 1. simpl. unfold cache_set.
    msteps. unfold modify. simpl. msteps.
    do 2 f_equal. rewrite <- !app_assoc. reflexivity.
  - msteps. do 2 f_equal. rewrite <- !app_assoc. reflexivity.
Qed.

Lemma HEAD_run env self s :
  HEAD env self s =
  match urlopen env (url_request (path self)) with
  | inl e =>
      (inl e, {| ss := ss s; trace := trace s ++ [Urlopen (url_request (path self))] |})
  | inr res =>
      (inr tt,
       {| ss := queue_put (access_line env self (status res)) (ss s);
          trace := trace s ++
            [Urlopen (url_request (path self)); SendResponse (status res) None] ++
            header_events (res_headers res) ++ [EndHeaders] |})
  end.
Proof.
  unfold HEAD, urlopen_url, do_urlopen, url_request. rewrite !bind_run. simpl.
  destruct (urlopen env _) as [e|res]; simpl; [done|].
  msteps. do 2 f_equal. rewrite <- !app_assoc. reflexivity.
Qed.

Lemma elem_of_header_events ev hs :
  ev ∈ header_events hs → ∃ header value, ev = SendHeader header value.
Proof.
  unfold header_events. intros ([header value] & -> & _)%list_elem_of_fmap. eauto.
Qed.

(** A decorated method whose body raised: the events of the body, then
    those of [handle_exception], which are error responses. *)
Lemma raised_events env func self s e s1 (evs1 : list event) :
  filter_passes env self s →
  func self s = (inl e, s1) →
  trace s1 = trace s ++ evs1 →
  ∃ evs2 : list event,
    new_events (filter_and_exceptions env func self) s = evs1 ++ evs2 ∧
    ∀ ev, ev ∈ evs2 → ∃ code message explain, ev = SendError code message explain.
Proof.
  intros Hpass Hraise Htr.
  destruct (handle_exception_events env self e s1) as (evs2 & Htr2 & Hevs2).
  exists evs2. split.
  - apply new_events_app. rewrite (filter_passes_run _ _ _ _ Hpass).
    rewrite (try_except_raise _ _ _ _ _ Hraise), Htr2, Htr. by rewrite <- app_assoc.
  - intros ev Hev. destruct (Hevs2 ev Hev) as (c & m & x & -> & _). eauto.
Qed.

Lemma returned_events env func self s s1 (evs1 : list event) :
  filter_passes env self s →
  func self s = (inr tt, s1) →
  trace s1 = trace s ++ evs1 →
  new_events (filter_and_exceptions env func self) s = evs1.
Proof.
  intros Hpass Hret Htr. apply new_events_app.
  rewrite (filter_passes_run _ _ _ _ Hpass).
  by rewrite (try_except_ok _ _ _ _ _ Hret).
Qed.

(** Deciding membership in an explicit list of events. *)
Ltac elem_cases H :=
  repeat first
    [ apply elem_of_app in H as [H|H]
    | apply elem_of_cons in H as [H|H]
    | apply elem_of_nil in H; destruct H
    | apply elem_of_header_events in H as (? & ? & H) ];
  try discriminate H.

Lemma do_GET_forwards env self s req :
  filter_passes env self s →
  Urlopen req ∈ new_events (do_GET env self) s →
  req = url_request (path self).
Proof.
  intros Hpass Hin. unfold do_GET in Hin.
  destruct (allow_caching (ss s)) eqn:Hallow;
    [destruct (cache_lookup (time env) (path self) (cache (ss s))) as [cached|] eqn:Hlook|].
  - pose proof (GET_hit_run env self s cached Hallow Hlook) as Hrun.
    rewrite (returned_events _ _ _ _ _ _ Hpass Hrun eq_refl) in Hin.
    elem_cases Hin.
  - pose proof (GET_forward_run env self s (or_intror Hlook)) as Hrun. simpl in Hrun.
    destruct (urlopen env _) as [e|res];
      [|destruct (res_read res) as [e|res_content]].
    1,2: destruct (raised_events _ _ _ _ _ _ _ Hpass Hrun eq_refl) as (evs2 & Hnew & Hevs2);
         rewrite Hnew in Hin; apply elem_of_app in Hin as [Hin|Hin];
         [elem_cases Hin; by injection Hin as ->
         |destruct (Hevs2 _ Hin) as (? & ? & ? & [=])].
    rewrite (returned_events _ _ _ _ _ _ Hpass Hrun eq_refl), Hallow in Hin.
    elem_cases Hin. by injection Hin as ->.
  - pose proof (GET_forward_run env self s (or_introl Hallow)) as Hrun. simpl in Hrun.
    destruct (urlopen env _) as [e|res];
      [|destruct (res_read res) as [e|res_content]].
    1,2: destruct (raised_events _ _ _ _ _ _ _ Hpass Hrun eq_refl) as (evs2 & Hnew & Hevs2);
         rewrite Hnew in Hin; apply elem_of_app in Hin as [Hin|Hin];
         [elem_cases Hin; by injection Hin as ->
         |destruct (Hevs2 _ Hin) as (? & ? & ? & [=])].
    rewrite (returned_events _ _ _ _ _ _ Hpass Hrun eq_refl), Hallow in Hin.
    elem_cases Hin. by injection Hin as ->.
Qed.

Lemma do_HEAD_events env self s :
  filter_passes env self s →
  ∃ evs2 : list event,
    new_events (do_HEAD env self) s =
      match urlopen env (url_request (path self)) with
      | inl e => [Urlopen (url_request (path self))] ++ evs2
      | inr res =>
          [Urlopen (url_request (path self)); SendResponse (status res) None] ++
          header_events (res_headers res) ++ [EndHeaders]
      end ∧
    ∀ ev, ev ∈ evs2 → ∃ code message explain, ev = SendError code message explain.
Proof.
  intros Hpass. unfold do_HEAD.
  pose proof (HEAD_run env self s) as Hrun.
  destruct (urlopen env _) as [e|res].
  - destruct (raised_events _ _ _ _ _ _ _ Hpass Hrun eq_refl) as (evs2 & Hnew & Hevs2).
    by exists evs2.
  - exists []. split; [|by intros ev ?%elem_of_nil].
    by rewrite (returned_events _ _ _ _ _ _ Hpass Hrun eq_refl).
Qed.

(** [handle_exception] adds the same events from every state, and all of
    them are error responses. *)
Lemma handle_exception_trace env self e :
  ∃ evs : list event,
    (∀ st, trace (snd (handle_exception env self e st)) = trace st ++ evs) ∧
    ∀ ev, ev ∈ evs → ∃ code message explain, ev = SendError code message explain.
Proof.
  unfold handle_exception, send_error_reason.
  repeat match goal with
         | |- context [if isinstance e ?c then _ else _] =>
             destruct (isinstance e c)
         end;
    try destruct (e_reason e);
    (eexists; split;
     [ intros st;
       first [ rewrite send_error_run; simpl; reflexivity
             | rewrite bind_run; simpl; reflexivity
             | simpl; symmetry; apply app_nil_r ]
     | intros ev Hev;
       first [ by apply elem_of_nil in Hev
             | apply list_elem_of_singleton in Hev as ->; eauto ] ]).
Qed.

Lemma filter_response_SendError (evs : list event) :
  (∀ ev, ev ∈ evs → ∃ code message explain, ev = SendError code message explain) →
  filter is_response evs = evs.
Proof.
  intros Hevs. induction evs as [|ev evs IH]; [done|].
  destruct (Hevs ev) as (c & m & x & ->); [left|].
  rewrite filter_cons. simpl. f_equal. apply IH. intros ev' Hin. apply Hevs. by right.
Qed.

(** A decorated method that raised before it had sent a response: the
    responses the client is sent are those of [handle_exception]. *)
Lemma raised_responses env func self s e s1 (evs1 : list event) :
  filter_passes env self s →
  func self s = (inl e, s1) →
  trace s1 = trace s ++ evs1 →
  filter is_response evs1 = [] →
  filter is_response (new_events (filter_and_exceptions env func self) s) =
  new_events (handle_exception env self e) s.
Proof.
  intros Hpass Hraise Htr Hnone.
  destruct (handle_exception_trace env self e) as (evs2 & Htr2 & Hevs2).
  rewrite (new_events_app _ _ _ (Htr2 s)).
  assert (new_events (filter_and_exceptions env func self) s = evs1 ++ evs2) as ->.
  { apply new_events_app. rewrite (filter_passes_run _ _ _ _ Hpass).
    rewrite (try_except_raise _ _ _ _ _ Hraise), Htr2, Htr. by rewrite <- app_assoc. }
  by rewrite filter_app, Hnone, (filter_response_SendError _ Hevs2).
Qed.

(** The same, for the calls of [urlopen]: [handle_exception] makes none. *)
Lemma raised_forward env func self s e s1 (evs1 : list event) :
  filter_passes env self s →
  func self s = (inl e, s1) →
  trace s1 = trace s ++ evs1 →
  filter is_forward (new_events (filter_and_exceptions env func self) s) =
  filter is_forward evs1.
Proof.
  intros Hpass Hraise Htr.
  destruct (raised_events _ _ _ _ _ _ _ Hpass Hraise Htr) as (evs2 & -> & Hevs2).
  by rewrite filter_app, (filter_SendError is_forward evs2), app_nil_r.
Qed.

Lemma urlopen_untyped env req :
  url_type env (full_url req) = None →
  urlopen env req = inl (unknown_url_type (full_url req)).
Proof. unfold urlopen. by intros ->. Qed.

Lemma urlopen_typed env req res :
  urlopen env req = inr res → request_calls env req = [Urlopen req].
Proof.
  unfold urlopen, request_calls. by destruct (url_type env (full_url req)).
Qed.

Lemma request_calls_typed env req :
  is_Some (url_type env (full_url req)) → request_calls env req = [Urlopen req].
Proof. unfold request_calls. by intros [scheme ->]. Qed.

Lemma request_calls_forward env req :
  filter is_forward (request_calls env req) = request_calls env req.
Proof. unfold request_calls. by destruct (url_type env (full_url req)). Qed.

Lemma request_calls_response env req :
  filter is_response (request_calls env req) = [].
Proof. unfold request_calls. by destruct (url_type env (full_url req)). Qed.

Lemma do_GET_forward_once env self s :
  filter_passes env self s →
  allow_caching (ss s) = false ∨
  cache_lookup (time env) (path self) (cache (ss s)) = None →
  filter is_forward (new_events (do_GET env self) s) =
    [Urlopen (url_request (path self))].
Proof.
  intros Hpass Hmiss. unfold do_GET.
  pose proof (GET_forward_run env self s Hmiss) as Hrun. simpl in Hrun.
  destruct (urlopen env _) as [e|res];
    [|destruct (res_read res) as [e|res_content]].
  1,2: by rewrite (raised_forward _ _ _ _ _ _ _ Hpass Hrun eq_refl).
  rewrite (returned_events _ _ _ _ _ _ Hpass Hrun eq_refl).
  destruct (allow_caching (ss s)); simpl;
    rewrite !filter_cons; simpl;
    by rewrite !filter_app, filter_header_events.
Qed.

Lemma do_HEAD_forward_once env self s :
  filter_passes env self s →
  filter is_forward (new_events (do_HEAD env self) s) =
    [Urlopen (url_request (path self))].
Proof.
  intros Hpass. unfold do_HEAD.
  pose proof (HEAD_run env self s) as Hrun.
  destruct (urlopen env _) as [e|res].
  - by rewrite (raised_forward _ _ _ _ _ _ _ Hpass Hrun eq_refl).
  - rewrite (returned_events _ _ _ _ _ _ Hpass Hrun eq_refl). simpl.
    rewrite !filter_cons. simpl.
    by rewrite !filter_app, filter_header_events.
Qed.

(** C6, as amended.  A HEAD that passes the filter calls [urlopen]
    exactly once, and so does a GET that is not served from the cache;
    both call it on the request's URL alone, so that the outbound
    request has no body and carries none of the inbound headers.  A
    HEAD writes the origin's status and headers and never writes a
    body. *)
Theorem get_head_outbound env self s :
  filter_passes env self s →
  filter is_forward (new_events (do_HEAD env self) s) =
    [Urlopen (url_request (path self))] ∧
  (allow_caching (ss s) = false ∨
   cache_lookup (time env) (path self) (cache (ss s)) = None →
   filter is_forward (new_events (do_GET env self) s) =
     [Urlopen (url_request (path self))]) ∧
  req_data (url_request (path self)) = None ∧
  req_headers (url_request (path self)) = [] ∧
  (∀ req, Urlopen req ∈ new_events (do_GET env self) s →
     full_url req = path self ∧ req_data req = None ∧ req_headers req = []) ∧
  (∀ req, Urlopen req ∈ new_events (do_HEAD env self) s →
     full_url req = path self ∧ req_data req = None ∧ req_headers req = []) ∧
  (∀ b, WfileWrite b ∉ new_events (do_HEAD env self) s) ∧
  (∀ res, urlopen env (url_request (path self)) = inr res →
     new_events (do_HEAD env self) s =
       [Urlopen (url_request (path self)); SendResponse (status res) None] ++
       header_events (res_headers res) ++ [EndHeaders]).
Proof.
  intros Hpass.
  destruct (do_HEAD_events env self s Hpass) as (evs2 & Hnew & Hevs2).
  split; [by apply do_HEAD_forward_once|].
  split; [by apply do_GET_forward_once|].
  split; [done|]. split; [done|].
  split; [|split; [|split]].
  - intros req Hin. by rewrite (do_GET_forwards env self s req Hpass Hin).
  - intros req Hin. rewrite Hnew in Hin.
    destruct (urlopen env _) as [e|res].
    + apply elem_of_app in Hin as [Hin|Hin].
      * elem_cases Hin. by injection Hin as ->.
      * destruct (Hevs2 _ Hin) as (? & ? & ? & [=]).
    + elem_cases Hin. by injection Hin as ->.
  - intros b Hin. rewrite Hnew in Hin.
    destruct (urlopen env _) as [e|res].
    + apply elem_of_app in Hin as [Hin|Hin].
      * elem_cases Hin.
      * destruct (Hevs2 _ Hin) as (? & ? & ? & [=]).
    + elem_cases Hin.
  - intros res Hopen. by rewrite Hnew, Hopen.
Qed.

(** C6, at a HEAD and a GET for http://example.com/a that carry a
    Cookie header, the cache being empty. *)
Lemma get_head_outbound_witness :
  let hs := [("Cookie", "k=v")] in
  let get := Example.client "10.0.0.5" "GET" "http://example.com/a" hs [] in
  let head := Example.client "10.0.0.5" "HEAD" "http://example.com/a" hs [] in
  let s := {| ss := Example.settings0; trace := [] |} in
  filter is_forward (new_events (do_GET Example.env get) s) =
    [Urlopen (url_request "http://example.com/a")] ∧
  filter is_forward (new_events (do_HEAD Example.env head) s) =
    [Urlopen (url_request "http://example.com/a")] ∧
  new_events (do_HEAD Example.env head) s =
    [Urlopen (url_request "http://example.com/a"); SendResponse 200 None;
     SendHeader "Content-Type" "text/plain"; EndHeaders].
Proof.
  intros hs get head s.
  destruct (get_head_outbound Example.env get s (conj eq_refl eq_refl))
    as (_ & Hget & _).
  destruct (get_head_outbound Example.env head s (conj eq_refl eq_refl))
    as (Hhead & _ & _ & _ & _ & _ & _ & Hevents).
  split; [apply Hget; by right|].
  split; [exact Hhead|].
  exact (Hevents _ eq_refl).
Defined.

(** C6 as stated fails: the inbound Cookie header of a GET is not part
    of the request sent to the origin, and the same holds for a HEAD. *)
Lemma inbound_headers_not_forwarded :
  let hs := [("Cookie", "k=v")] in
  let get := Example.client "10.0.0.5" "GET" "http://example.com/a" hs [] in
  let head := Example.client "10.0.0.5" "HEAD" "http://example.com/a" hs [] in
  let s := {| ss := Example.settings0; trace := [] |} in
  filter is_forward (new_events (do_GET Example.env get) s) =
    [Urlopen {| full_url := "http://example.com/a"; req_data := None;
                req_headers := []; method := None |}] ∧
  filter is_forward (new_events (do_HEAD Example.env head) s) =
    [Urlopen {| full_url := "http://example.com/a"; req_data := None;
                req_headers := []; method := None |}] ∧
  copy_headers hs = [("Cookie", VStr "k=v")] ∧
  copy_headers hs ≠ [].
Proof. vm_compute. repeat split. discriminate. Qed.

(** ** POST and PUT *)

Lemma dict_get_set {V} k k' (v : V) d :
  dict_get k (dict_set k' v d) = if decide (k = k') then Some v else dict_get k d.
Proof.
  induction d as [|[k0 v0] d IH]; simpl.
  - by destruct (decide (k = k')).
  - destruct (decide (k' = k0)) as [->|Hne]; simpl.
    + by destruct (decide (k = k0)).
    + destruct (decide (k = k0)) as [->|]; [|done].
      by destruct (decide (k0 = k')) as [->|].
Qed.

Lemma dict_get_foldl k hs (d : list (string * pyval)) :
  dict_get k (foldl (fun d '(header, value) => dict_set header (VStr value) d) d hs) =
  match last_value k hs with
  | Some v => Some (VStr v)
  | None => dict_get k d
  end.
Proof.
  revert d. induction hs as [|[header value] hs IH]; intros d; simpl; [done|].
  rewrite IH. destruct (last_value k hs); [done|].
  rewrite dict_get_set. by destruct (decide (k = header)).
Qed.

(** Every outbound header of a PUT is the client's, value unchanged. *)
Lemma dict_get_copy_headers k hs :
  dict_get k (copy_headers hs) = VStr <$> last_value k hs.
Proof.
  unfold copy_headers. rewrite dict_get_foldl. by destruct (last_value k hs).
Qed.

Lemma POST_run env self s :
  POST env self s =
  match msg_get "Content-Length" (headers self) with
  | None => (inl int_TypeError, s)
  | Some v =>
      match int_str env v with
      | None => (inl (int_ValueError v), s)
      | Some n =>
          let req := POST_request self n in
          match urlopen env req with
          | inl e =>
              (inl e, {| ss := ss s;
                         trace := trace s ++ [RfileRead n] ++ request_calls env req |})
          | inr res =>
              match res_read res with
              | inl e =>
                  (inl e, {| ss := ss s;
                             trace := trace s ++ [RfileRead n; Urlopen req] |})
              | inr res_content =>
                  (inr tt,
                   {| ss := queue_put (access_line env self (status res)) (ss s);
                      trace := trace s ++
                        [RfileRead n; Urlopen req; SendResponse (status res) None] ++
                        header_events (res_headers res) ++
                        [EndHeaders; WfileWrite res_content] |})
              end
          end
      end
  end.
Proof.
  unfold POST. rewrite bind_run.
  destruct (msg_get "Content-Length" (headers self)) as [v|]; [|done].
  destruct (int_str env v) as [n|]; [|done]. simpl.
  unfold rfile_read, new_Request, do_urlopen, urlopen, request_calls, POST_request.
  rewrite !bind_run. simpl. rewrite !bind_run. simpl.
  destruct (url_type env (path self)) as [scheme|] eqn:Htype; simpl; [|done].
  rewrite !bind_run. simpl. rewrite Htype, <- app_assoc. simpl.
  destruct (open_request env _) as [e|res]; simpl; [done|].
  rewrite bind_run. unfold read, lift. simpl.
  destruct (res_read res) as [e|res_content]; simpl; [done|].
  msteps. do 2 f_equal. rewrite <- !app_assoc. reflexivity.
Qed.

Lemma PUT_run env self s :
  PUT env self s =
  match
    match msg_get "Content-Length" (headers self) with
    | None => inr 0
    | Some v =>
        match int_str env v with
        | Some n => inr n
        | None => inl (int_ValueError v)
        end
    end
  with
  | inl e => (inl e, s)
  | inr n =>
      let req := PUT_request self n in
      match urlopen env req with
      | inl e =>
          (inl e, {| ss := ss s;
                     trace := trace s ++ [RfileRead n] ++ request_calls env req |})
      | inr res =>
          let sent :=
            [RfileRead n; Urlopen req; SendResponse (status res) None] ++
            header_events (res_headers res) ++ [EndHeaders] in
          match res_read res with
          | inl e =>
              (inl e, {| ss := queue_put (access_line env self (status res)) (ss s);
                         trace := trace s ++ sent |})
          | inr res_content =>
              (inr tt, {| ss := queue_put (access_line env self (status res)) (ss s);
                          trace := trace s ++ sent ++ [WfileWrite res_content] |})
          end
      end
  end.
Proof.
  unfold PUT. rewrite bind_run.
  assert (∀ k : Z → M unit,
    (let (r, s') :=
       match msg_get "Content-Length" (headers self) with
       | Some v =>
           match int_str env v with
           | Some n => mret n
           | None => raise (int_ValueError v)
           end
       | None => mret 0
       end s in
     match r with inl e => (inl e, s') | inr a => k a s' end) =
    match
      match msg_get "Content-Length" (headers self) with
      | None => inr 0
      | Some v =>
          match int_str env v with
          | Some n => inr n
          | None => inl (int_ValueError v)
          end
      end
    with
    | inl e => (inl e, s)
    | inr n => k n s
    end) as Hlen.
  { intros k. destruct (msg_get _ _) as [v|]; [|done]. by destruct (int_str env v). }
  rewrite Hlen. clear Hlen.
  destruct (match msg_get "Content-Length" (headers self) with
            | None => inr 0 | Some v => _ end) as [e|n]; [done|].
  unfold rfile_read, new_Request, do_urlopen, urlopen, request_calls, PUT_request.
  rewrite !bind_run. simpl. rewrite !bind_run. simpl.
  destruct (url_type env (path self)) as [scheme|] eqn:Htype; simpl; [|done].
  rewrite !bind_run. simpl. rewrite Htype, <- app_assoc. simpl.
  destruct (open_request env _) as [e|res]; simpl; [done|].
  mstep. mstep. mstep.
  rewrite bind_run. unfold read, lift. simpl.
  destruct (res_read res) as [e|res_content]; simpl.
  - do 2 f_equal. rewrite <- !app_assoc. reflexivity.
  - unfold wfile_write, emit. simpl. do 2 f_equal. rewrite <- !app_assoc. reflexivity.
Qed.

Lemma DELETE_run env self s :
  DELETE env self s =
  let req := DELETE_request self in
  match urlopen env req with
  | inl e => (inl e, {| ss := ss s; trace := trace s ++ request_calls env req |})
  | inr res =>
      let sent :=
        [Urlopen req; SendResponse (status res) None] ++
        header_events (res_headers res) ++ [EndHeaders] in
      match res_read res with
      | inl e =>
          (inl e, {| ss := queue_put (access_line env self (status res)) (ss s);
                     trace := trace s ++ sent |})
      | inr res_content =>
          (inr tt, {| ss := queue_put (access_line env self (status res)) (ss s);
                      trace := trace s ++ sent ++ [WfileWrite res_content] |})
      end
  end.
Proof.
  unfold DELETE, new_Request, do_urlopen, urlopen, request_calls, DELETE_request.
  rewrite !bind_run. simpl.
  destruct (url_type env (path self)) as [scheme|] eqn:Htype; simpl;
    [|by rewrite app_nil_r; destruct s].
  rewrite !bind_run. simpl. rewrite Htype.
  destruct (open_request env _) as [e|res]; simpl; [done|].
  mstep. mstep. mstep.
  rewrite bind_run. unfold read, lift. simpl.
  destruct (res_read res) as [e|res_content]; simpl.
  - do 2 f_equal. rewrite <- !app_assoc. reflexivity.
  - unfold wfile_write, emit. simpl. do 2 f_equal. rewrite <- !app_assoc. reflexivity.
Qed.

(** ** The calls of [urlopen] a method makes *)

Ltac forward_list :=
  simpl; rewrite ?filter_cons; simpl;
  rewrite ?filter_app, ?filter_header_events, ?request_calls_forward by done;
  try reflexivity.


Lemma do_PUT_forward_cases env self s :
  filter_passes env self s →
  filter is_forward (new_events (do_PUT env self) s) =
  match PUT_content_length env self with
  | inl _ => []
  | inr n => request_calls env (PUT_request self n)
  end.
Proof.
  intros Hpass. unfold do_PUT.
  pose proof (PUT_run env self s) as Hrun.
  assert (trace s = trace s ++ []) as Hnil by (by rewrite app_nil_r).
  fold (PUT_content_length env self) in Hrun.
  destruct (PUT_content_length env self) as [e|n];
    [by rewrite (raised_forward _ _ _ _ _ _ [] Hpass Hrun Hnil)|].
  simpl in Hrun.
  destruct (urlopen env _) as [e|res] eqn:Hopen;
    [|destruct (res_read res) as [e|res_content]].
  - rewrite (raised_forward _ _ _ _ _ _ _ Hpass Hrun eq_refl). forward_list.
  - rewrite (raised_forward _ _ _ _ _ _ _ Hpass Hrun eq_refl).
    rewrite (urlopen_typed _ _ _ Hopen). forward_list.
  - rewrite (returned_events _ _ _ _ _ _ Hpass Hrun eq_refl).
    rewrite (urlopen_typed _ _ _ Hopen). forward_list.
Qed.

Lemma do_DELETE_forward env self s :
  filter_passes env self s →
  filter is_forward (new_events (do_DELETE env self) s) =
  request_calls env (DELETE_request self).
Proof.
  intros Hpass. unfold do_DELETE.
  pose proof (DELETE_run env self s) as Hrun. simpl in Hrun.
  destruct (urlopen env _) as [e|res] eqn:Hopen;
    [|destruct (res_read res) as [e|res_content]].
  - rewrite (raised_forward _ _ _ _ _ _ _ Hpass Hrun eq_refl). forward_list.
  - rewrite (raised_forward _ _ _ _ _ _ _ Hpass Hrun eq_refl).
    rewrite (urlopen_typed _ _ _ Hopen). forward_list.
  - rewrite (returned_events _ _ _ _ _ _ Hpass Hrun eq_refl).
    rewrite (urlopen_typed _ _ _ Hopen). forward_list.
Qed.








(** ** What the client is sent when the forward raises *)


Lemma do_HEAD_raised env self s e :
  filter_passes env self s →
  urlopen env (url_request (path self)) = inl e →
  filter is_response (new_events (do_HEAD env self) s) =
  new_events (handle_exception env self e) s.
Proof.
  intros Hpass Hopen. pose proof (HEAD_run env self s) as Hrun.
  rewrite Hopen in Hrun.
  by apply (raised_responses _ _ _ _ _ _ _ Hpass Hrun eq_refl).
Qed.

Lemma do_GET_raised env self s e :
  filter_passes env self s →
  allow_caching (ss s) = false ∨
  cache_lookup (time env) (path self) (cache (ss s)) = None →
  urlopen env (url_request (path self)) = inl e ∨
  (∃ res, urlopen env (url_request (path self)) = inr res ∧ res_read res = inl e) →
  filter is_response (new_events (do_GET env self) s) =
  new_events (handle_exception env self e) s.
Proof.
  intros Hpass Hmiss Hraise.
  pose proof (GET_forward_run env self s Hmiss) as Hrun. simpl in Hrun.
  destruct Hraise as [Hopen|(res & Hopen & Hread)]; rewrite Hopen, ?Hread in Hrun;
    by apply (raised_responses _ _ _ _ _ _ _ Hpass Hrun eq_refl).
Qed.

Lemma do_POST_raised env self s e v n :
  filter_passes env self s →
  msg_get "Content-Length" (headers self) = Some v →
  int_str env v = Some n →
  urlopen env (POST_request self n) = inl e ∨
  (∃ res, urlopen env (POST_request self n) = inr res ∧ res_read res = inl e) →
  filter is_response (new_events (do_POST env self) s) =
  new_events (handle_exception env self e) s.
Proof.
  intros Hpass Hv Hn Hraise.
  pose proof (POST_run env self s) as Hrun. rewrite Hv, Hn in Hrun. simpl in Hrun.
  destruct Hraise as [Hopen|(res & Hopen & Hread)]; rewrite Hopen, ?Hread in Hrun;
    apply (raised_responses _ _ _ _ _ _ _ Hpass Hrun eq_refl);
    rewrite ?filter_cons; simpl; first [reflexivity | apply request_calls_response].
Qed.

Lemma do_PUT_raised env self s e n :
  filter_passes env self s →
  PUT_content_length env self = inr n →
  urlopen env (PUT_request self n) = inl e →
  filter is_response (new_events (do_PUT env self) s) =
  new_events (handle_exception env self e) s.
Proof.
  intros Hpass Hn Hopen.
  pose proof (PUT_run env self s) as Hrun.
  fold (PUT_content_length env self) in Hrun. rewrite Hn in Hrun. simpl in Hrun.
  rewrite Hopen in Hrun.
  apply (raised_responses _ _ _ _ _ _ _ Hpass Hrun eq_refl).
  rewrite ?filter_cons; simpl. apply request_calls_response.
Qed.

Lemma do_DELETE_raised env self s e :
  filter_passes env self s →
  urlopen env (DELETE_request self) = inl e →
  filter is_response (new_events (do_DELETE env self) s) =
  new_events (handle_exception env self e) s.
Proof.
  intros Hpass Hopen.
  pose proof (DELETE_run env self s) as Hrun. simpl in Hrun. rewrite Hopen in Hrun.
  apply (raised_responses _ _ _ _ _ _ _ Hpass Hrun eq_refl).
  apply request_calls_response.
Qed.

(** C4, as amended.  A [TimeoutError] is answered with 504 "Gateway
    Timeout" and [handle_exception] puts exactly one line of its own on
    the log, which contains "timeout"; [send_error] then logs its error
    line and its access line, and of these only the access line can
    contain "timeout", namely when the request line does (the timestamp
    and the client address set aside).  A [URLError] that is not an
    [HTTPError] and whose reason is a string is answered with 502 and
    that reason; an [HTTPError] with its own code and reason.  Whatever
    a decorated method raises is handled this way, and when the
    exception is raised by the one call of [urlopen], or for GET and
    POST by reading the origin's body, the error response is the only
    response the client is sent. *)
Theorem exception_mapping env self e s :
  (isinstance e TimeoutError = true →
     new_events (handle_exception env self e) s = [SendError 504 "Gateway Timeout" None] ∧
     logged (handle_exception env self e) s =
       [timeout_line; error_line env self 504 "Gateway Timeout"; access_line env self 504] ∧
     contains "timeout" timeout_line = true ∧
     (contains "timeout" (log_date_time_string env) = false →
      contains "timeout" (address_string self) = false →
      timeout_lines (logged (handle_exception env self e) s) =
        timeout_line ::
        (if contains "timeout" (requestline self) then [access_line env self 504] else []))) ∧
  (isinstance e URLError = true → isinstance e HTTPError = false →
   ∀ text, e_reason e = ReasonStr text →
     handle_exception env self e s = send_error env self 502 text None s ∧
     new_events (handle_exception env self e) s = [SendError 502 text None]) ∧
  (isinstance e HTTPError = true →
   ∀ text, e_reason e = ReasonStr text →
     handle_exception env self e s =
       send_error env self (e_code e) text (Some (e_str e)) s ∧
     new_events (handle_exception env self e) s =
       [SendError (e_code e) text (Some (e_str e))]) ∧
  (∀ func s0,
     filter_passes env self s0 → func self s0 = (inl e, s) →
     filter_and_exceptions env func self s0 = handle_exception env self e s) ∧
  (filter_passes env self s →
     let answer := new_events (handle_exception env self e) s in
     (urlopen env (url_request (path self)) = inl e →
        filter is_response (new_events (do_HEAD env self) s) = answer) ∧
     (allow_caching (ss s) = false ∨
      cache_lookup (time env) (path self) (cache (ss s)) = None →
      urlopen env (url_request (path self)) = inl e ∨
      (∃ res, urlopen env (url_request (path self)) = inr res ∧ res_read res = inl e) →
        filter is_response (new_events (do_GET env self) s) = answer) ∧
     (∀ v n,
        msg_get "Content-Length" (headers self) = Some v →
        int_str env v = Some n →
        urlopen env (POST_request self n) = inl e ∨
        (∃ res, urlopen env (POST_request self n) = inr res ∧ res_read res = inl e) →
        filter is_response (new_events (do_POST env self) s) = answer) ∧
     (∀ n,
        PUT_content_length env self = inr n →
        urlopen env (PUT_request self n) = inl e →
        filter is_response (new_events (do_PUT env self) s) = answer) ∧
     (urlopen env (DELETE_request self) = inl e →
        filter is_response (new_events (do_DELETE env self) s) = answer)).
Proof.
  split; [|split; [|split; [|split]]].
  - intros Hto. pose proof (handle_exception_timeout env self e s Hto) as Hrun.
    assert (logged (handle_exception env self e) s =
            [timeout_line; error_line env self 504 "Gateway Timeout";
             access_line env self 504]) as Hlog.
    { apply logged_app. rewrite Hrun. simpl. by rewrite <- !app_assoc. }
    split; [apply new_events_app; by rewrite Hrun|].
    split; [done|]. split; [reflexivity|].
    intros Hd Ha. rewrite Hlog. unfold timeout_lines.
    rewrite filter_cons. change (contains "timeout" timeout_line) with true. simpl.
    f_equal. rewrite filter_cons, (timeout_in_error_line _ _ Hd Ha). simpl.
    rewrite filter_cons, (timeout_in_access_line _ _ Hd Ha).
    by destruct (contains "timeout" (requestline self)).
  - intros Hurl Hhttp text Htext.
    assert (handle_exception env self e s = send_error env self 502 text None s)
      as Hrun.
    { unfold handle_exception, send_error_reason, isinstance in *.
      rewrite Htext. by destruct (e_class e). }
    split; [done|]. apply new_events_app. by rewrite Hrun.
  - intros Hhttp text Htext.
    assert (handle_exception env self e s =
            send_error env self (e_code e) text (Some (e_str e)) s) as Hrun.
    { unfold handle_exception, send_error_reason, isinstance in *.
      rewrite Htext. by destruct (e_class e). }
    split; [done|]. apply new_events_app. by rewrite Hrun.
  - intros func s0 Hpass Hraise. rewrite (filter_passes_run _ _ _ _ Hpass).
    by apply try_except_raise.
  - intros Hpass answer. split; [|split; [|split; [|split]]].
    + by apply do_HEAD_raised.
    + by apply do_GET_raised.
    + intros v n. by apply do_POST_raised.
    + intros n. by apply do_PUT_raised.
    + by apply do_DELETE_raised.
Qed.

(** C4, at a GET whose origin times out, at one for a URL that names no
    host and at one the origin answers with 404. *)
Lemma exception_mapping_witness :
  let slow := Example.client "10.0.0.5" "GET" "http://example.com/timeout" [] [] in
  let nohost := Example.client "10.0.0.5" "GET" "http:///a" [] [] in
  let missing := Example.client "10.0.0.5" "GET" "http://example.com/none" [] [] in
  let s := {| ss := Example.settings0; trace := [] |} in
  filter is_response (new_events (do_GET Example.env slow) s) =
    [SendError 504 "Gateway Timeout" None] ∧
  timeout_lines (logged (handle_exception Example.env slow Example.timed_out) s) =
    [timeout_line; access_line Example.env slow 504] ∧
  filter is_response (new_events (do_GET Example.env nohost) s) =
    [SendError 502 "no host given" None] ∧
  filter is_response (new_events (do_GET Example.env missing) s) =
    [SendError 404 "Not Found" (Some "HTTP Error 404: Not Found")].
Proof.
  intros slow nohost missing s.
  destruct (exception_mapping Example.env slow Example.timed_out s)
    as (Hto & _ & _ & _ & Hslow).
  destruct (exception_mapping Example.env nohost Example.no_host_given s)
    as (_ & Hurl & _ & _ & Hnohost).
  destruct (exception_mapping Example.env missing Example.not_found s)
    as (_ & _ & Hhttp & _ & Hmissing).
  destruct (Hto eq_refl) as (Hto1 & _ & _ & Hlines).
  destruct (Hslow (conj eq_refl eq_refl)) as (_ & Hslow1 & _).
  destruct (Hnohost (conj eq_refl eq_refl)) as (_ & Hnohost1 & _).
  destruct (Hmissing (conj eq_refl eq_refl)) as (_ & Hmissing1 & _).
  split; [|split; [|split]].
  - exact (eq_trans (Hslow1 (or_intror eq_refl) (or_introl eq_refl)) Hto1).
  - exact (Hlines eq_refl eq_refl).
  - exact (eq_trans (Hnohost1 (or_intror eq_refl) (or_introl eq_refl))
             (proj2 (Hurl eq_refl eq_refl _ eq_refl))).
  - exact (eq_trans (Hmissing1 (or_intror eq_refl) (or_introl eq_refl))
             (proj2 (Hhttp eq_refl _ eq_refl))).
Defined.

(** C4 as stated fails: when the request line itself contains "timeout",
    two of the lines logged for the timeout contain it. *)
Lemma timeout_logged_twice :
  let self := Example.client "10.0.0.5" "GET" "http://example.com/timeout" [] [] in
  let s := {| ss := Example.settings0; trace := [] |} in
  urlopen Example.env (url_request (path self)) = inl Example.timed_out ∧
  new_events (do_GET Example.env self) s =
    [CacheGet "http://example.com/timeout";
     Urlopen (url_request "http://example.com/timeout");
     SendError 504 "Gateway Timeout" None] ∧
  timeout_lines (logged (do_GET Example.env self) s) =
    ["* timeout while accessing URL: {self.path} *";
     "03/Nov/2026 10:00:00 10.0.0.5 " +:+ dquote +:+
       "GET http://example.com/timeout HTTP/1.1" +:+ dquote +:+ " 504 -"] ∧
  length (timeout_lines (logged (do_GET Example.env self) s)) ≠ 1%nat.
Proof. vm_compute. repeat split. discriminate. Qed.

(** ** A target URL without a hostname *)







(** ** The event sink *)

Lemma put_all_queue lines g :
  sse_queue (put_all lines g) = sse_queue g ++ lines.
Proof.
  revert g. induction lines as [|line lines IH]; intros g; simpl.
  - by rewrite app_nil_r.
  - unfold put_all in *. simpl. rewrite IH. simpl. by rewrite <- app_assoc.
Qed.

Lemma run_sink_delivery ops g :
  concat (fst (run_sink ops g)) ++ sse_queue (snd (run_sink ops g)) =
  sse_queue g ++ pushed ops.
Proof.
  revert g. induction ops as [|[line|] ops IH]; intros g; simpl.
  - by rewrite app_nil_r.
  - rewrite IH. simpl. by rewrite <- app_assoc.
  - specialize (IH (set_sse_queue [] g)).
    destruct (run_sink ops (set_sse_queue [] g)) as [rest g'']. simpl in *.
    by rewrite <- app_assoc, IH.
Qed.

(** C9. After the lines L1..Ln are pushed to an empty sink, a drain
    returns exactly [L1..Ln] in push order and leaves the sink empty, so
    that the next drain returns nothing.  Under any interleaving of
    pushes and drains, the drains taken together deliver the pushed
    lines in order, each once at most: what was not yet delivered is
    what is still queued.  [log_message] is such a push. *)
Theorem event_drain_exact (g : shared_settings) (lines : list string) :
  fst (data (put_all lines g)) = sse_queue g ++ lines ∧
  (sse_queue g = [] → fst (data (put_all lines g)) = lines) ∧
  sse_queue (snd (data (put_all lines g))) = [] ∧
  fst (data (snd (data (put_all lines g)))) = [] ∧
  (∀ ops,
     concat (fst (run_sink ops g)) ++ sse_queue (snd (run_sink ops g)) =
     sse_queue g ++ pushed ops) ∧
  (∀ env self message s,
     ss (snd (log_message env self message s)) =
     queue_put (log_date_time_string env +:+ " " +:+ address_string self +:+ " "
                +:+ message) (ss s)).
Proof.
  split; [apply put_all_queue|].
  split; [intros Hempty; simpl; by rewrite put_all_queue, Hempty|].
  split; [done|]. split; [done|].
  split; [intros ops; apply run_sink_delivery|done].
Qed.

(** C9, at three lines pushed to the empty sink of a fresh process. *)
Lemma event_drain_exact_witness :
  fst (data (put_all ["L1"; "L2"; "L3"] Example.settings0)) = ["L1"; "L2"; "L3"].
Proof.
  destruct (event_drain_exact Example.settings0 ["L1"; "L2"; "L3"])
    as (_ & Hexact & _).
  apply Hexact. reflexivity.
Defined.

(** C10, at a TRACE and an OPTIONS from the blacklisted client: both are
    answered 403, neither 405 nor 200. *)
Lemma every_method_filtered_witness :
  let self := Example.client "10.0.0.5" "TRACE" "http://example.com/a" [] [] in
  new_events (do_method Example.env M_TRACE self) blacklisted_state =
    [SendError 403 "Access Denied" None] ∧
  new_events (do_method Example.env M_OPTIONS self) blacklisted_state =
    [SendError 403 "Access Denied" None].
Proof.
  intros self.
  destruct (every_method_filtered Example.env M_TRACE self blacklisted_state)
    as (_ & Htrace & _).
  destruct (every_method_filtered Example.env M_OPTIONS self blacklisted_state)
    as (_ & Hoptions & _).
  split.
  - apply Htrace. left. reflexivity.
  - apply Hoptions. left. reflexivity.
Defined.

(** * Further properties of the settings page *)

(** ** Parsing a filter list *)

Lemma split_commas_cons text : ∃ piece pieces, split_commas text = piece :: pieces.
Proof.
  induction text as [|c text IH]; simpl; [eauto|].
  destruct (decide (c = ","%char)); [eauto|].
  destruct IH as (piece & pieces & ->). eauto.
Qed.

Lemma remove_spaces_no_space text : has_char " " (remove_spaces text) = false.
Proof.
  induction text as [|c text IH]; simpl; [done|].
  destruct (decide (c = " "%char)) as [->|Hc]; [done|]. simpl.
  by rewrite IH, bool_decide_eq_false_2.
Qed.

Lemma split_commas_pieces d text x :
  has_char d text = false →
  x ∈ split_commas text →
  has_char d x = false ∧ has_char "," x = false.
Proof.
  revert x. induction text as [|c text IH]; intros x Hd Hin; simpl in *.
  - by apply list_elem_of_singleton in Hin as ->.
  - apply orb_false_elim in Hd as [Hc Hd].
    destruct (decide (c = ","%char)) as [->|Hcomma].
    + apply elem_of_cons in Hin as [->|Hin]; [done|]. by apply IH.
    + destruct (split_commas_cons text) as (piece & pieces & Hsplit).
      rewrite Hsplit in *.
      apply elem_of_cons in Hin as [->|Hin].
      * destruct (IH piece Hd) as [Hp1 Hp2]; [left|]. simpl.
        by rewrite Hc, Hp1, Hp2, bool_decide_eq_false_2.
      * apply IH; [done|by right].
Qed.

Lemma parsed_entries_clean text x :
  x ∈ parse_filter_list text → clean_entry x.
Proof.
  unfold parse_filter_list, drop_empty, clean_entry.
  intros [Hne Hin]%list_elem_of_filter.
  split; [done|].
  apply (split_commas_pieces " " (remove_spaces text)); [|done].
  apply remove_spaces_no_space.
Qed.



Lemma remove_spaces_clean x : has_char " " x = false → remove_spaces x = x.
Proof.
  induction x as [|c x IH]; simpl; [done|].
  intros [Hc Hx]%orb_false_elim. apply bool_decide_eq_false in Hc.
  destruct (decide (c = " "%char)); [done|]. by rewrite IH.
Qed.

Lemma remove_spaces_app a b :
  remove_spaces (a +:+ b) = remove_spaces a +:+ remove_spaces b.
Proof.
  induction a as [|c a IH]; simpl; [done|].
  destruct (decide (c = " "%char)); [done|]. simpl. by rewrite IH.
Qed.

Lemma split_commas_clean x : has_char "," x = false → split_commas x = [x].
Proof.
  induction x as [|c x IH]; simpl; [done|].
  intros [Hc Hx]%orb_false_elim. apply bool_decide_eq_false in Hc.
  destruct (decide (c = ","%char)); [done|]. by rewrite IH.
Qed.

Lemma split_commas_app x rest :
  has_char "," x = false →
  split_commas (x +:+ String "," rest) = x :: split_commas rest.
Proof.
  induction x as [|c x IH]; simpl; [done|].
  intros [Hc Hx]%orb_false_elim. apply bool_decide_eq_false in Hc.
  destruct (decide (c = ","%char)); [done|]. by rewrite IH.
Qed.

Lemma drop_empty_cons x l :
  x ≠ EmptyString → drop_empty (x :: l) = x :: drop_empty l.
Proof. intros Hx. unfold drop_empty. by rewrite filter_cons_True. Qed.

Lemma join_comma_cons x y l :
  join_comma (x :: y :: l) = x +:+ String "," (String " " (join_comma (y :: l))).
Proof. reflexivity. Qed.

Lemma remove_spaces_separator x rest :
  has_char " " x = false →
  remove_spaces (x +:+ String "," (String " " rest)) =
  x +:+ String "," (remove_spaces rest).
Proof.
  intros Hsp. rewrite remove_spaces_app, (remove_spaces_clean _ Hsp). reflexivity.
Qed.

Lemma parse_join_inverse (l : list string) :
  (∀ x, x ∈ l → clean_entry x) →
  parse_filter_list (join_comma l) = l.
Proof.
  unfold parse_filter_list.
  induction l as [|x l IH]; intros Hclean; [done|].
  destruct (Hclean x) as (Hne & Hsp & Hco); [left|].
  assert (∀ y, y ∈ l → clean_entry y) as Hl by (intros y Hy; apply Hclean; by right).
  specialize (IH Hl).
  destruct l as [|y l'].
  - simpl. by rewrite (remove_spaces_clean _ Hsp), (split_commas_clean _ Hco),
      (drop_empty_cons _ _ Hne).
  - rewrite join_comma_cons, (remove_spaces_separator _ _ Hsp),
      (split_commas_app _ _ Hco), (drop_empty_cons _ _ Hne).
    by rewrite IH.
Qed.

(** X2. The page shows a list as [', '.join(list)]; submitting that text
    stores the same list again, provided no entry is empty or holds a
    space or a comma. *)
Theorem parse_join_roundtrip (l : list string) :
  (∀ x, x ∈ l →
     x ≠ EmptyString ∧ has_char " " x = false ∧ has_char "," x = false) →
  parse_filter_list (join_comma l) = l.
Proof. apply parse_join_inverse. Qed.

(** X2, at a list of two hostnames. *)
Lemma parse_join_roundtrip_witness :
  parse_filter_list (join_comma ["a.com"; "b.org"]) = ["a.com"; "b.org"].
Proof.
  apply (parse_join_roundtrip ["a.com"; "b.org"]).
  intros x Hx.
  repeat (apply elem_of_cons in Hx as [->|Hx]; [by repeat split|]).
  by apply elem_of_nil in Hx.
Defined.

(** X3. A submitted text yields the empty list, which switches the
    filter list off, exactly when it holds nothing but spaces and
    commas; the empty text is the first such case. *)
Theorem parse_filter_list_blank text :
  parse_filter_list text = [] ↔ blank_text text = true.
Proof.
  unfold parse_filter_list.
  induction text as [|c text IH]; simpl; [done|].
  destruct (decide (c = " "%char)) as [->|Hsp]; [done|].
  rewrite (bool_decide_eq_false_2 _ Hsp). simpl.
  destruct (decide (c = ","%char)) as [->|Hco].
  - unfold drop_empty in *. by rewrite filter_cons_False by (by intros []).
  - rewrite (bool_decide_eq_false_2 _ Hco). simpl.
    destruct (split_commas_cons (remove_spaces text)) as (piece & pieces & ->).
    by rewrite drop_empty_cons.
Qed.

(** ** Submitting the page *)

Lemma home_page_send_filters env ub uw ib iw a :
  let a' :=
    {| settings :=
         {| sse_queue :=
              sse_queue (settings a) ++
              ["> Client updated url filter lists, and ip filter lists <"];
            cache := cache (settings a);
            url_whitelist := parse_filter_list uw;
            url_blacklist := parse_filter_list ub;
            ip_whitelist := parse_filter_list iw;
            ip_blacklist := parse_filter_list ib;
            allow_caching := allow_caching (settings a);
            caching_timer := caching_timer (settings a) |};
       proxy_server_running := proxy_server_running a;
       actions := actions a |} in
  home_page env "POST" (filters_form ub uw ib iw) a = (inr (render a'), a').
Proof. reflexivity. Qed.

(** X4. Sending the filters stores the parsed text of each of the four
    fields and leaves the cache and the caching settings alone; sending
    the page back as it is then rendered stores the same four lists
    again and renders the same page. *)
Theorem send_filters_stable env ub uw ib iw a :
  let a1 := snd (home_page env "POST" (filters_form ub uw ib iw) a) in
  let p := render a1 in
  let a2 :=
    snd (home_page env "POST"
           (filters_form (url_blacklist_text p) (url_whitelist_text p)
              (ip_blacklist_text p) (ip_whitelist_text p)) a1) in
  (url_blacklist (settings a1) = parse_filter_list ub ∧
   url_whitelist (settings a1) = parse_filter_list uw ∧
   ip_blacklist (settings a1) = parse_filter_list ib ∧
   ip_whitelist (settings a1) = parse_filter_list iw ∧
   cache (settings a1) = cache (settings a) ∧
   allow_caching (settings a1) = allow_caching (settings a) ∧
   caching_timer (settings a1) = caching_timer (settings a)) ∧
  (url_blacklist (settings a2) = url_blacklist (settings a1) ∧
   url_whitelist (settings a2) = url_whitelist (settings a1) ∧
   ip_blacklist (settings a2) = ip_blacklist (settings a1) ∧
   ip_whitelist (settings a2) = ip_whitelist (settings a1) ∧
   render a2 = render a1).
Proof.
  intros a1 p a2. subst a1 p a2.
  rewrite !home_page_send_filters. simpl.
  split; [done|].
  rewrite !parse_join_inverse by apply parsed_entries_clean.
  done.
Qed.

(** X5. Sending the caching settings sets the flag from the checkbox,
    then the timer from the number, then logs both.  When the number
    does not parse, the request fails with the flag already changed, the
    timer as it was and nothing logged. *)
Theorem home_page_send_caching env form v text a :
  form !! "toggle_server" = None →
  form !! "send_filters" = None →
  form !! "clear_cache" = None →
  form !! "send_caching" = Some v →
  form !! "cache_time" = Some text →
  let allow := bool_decide (is_Some (form !! "allow_cache")) in
  match int_str env text with
  | None =>
      home_page env "POST" form a =
      (inl (FormValueError text), with_settings (set_allow_caching allow) a)
  | Some n =>
      let a' :=
        with_settings (fun g =>
          queue_put ("> Client updated caching timer to be " +:+ str_Z n +:+ " seconds <")
            (queue_put ("> Client updated caching to be " +:+ str_bool allow +:+ " <")
               (set_caching_timer n (set_allow_caching allow g)))) a in
      home_page env "POST" form a = (inr (render a'), a')
  end.
Proof.
  intros Ht Hf Hc Hs Htime allow.
  unfold home_page, toggle_server, send_filters, clear_cache, send_caching,
    assign_cache_time, and_then.
  rewrite Ht, Hf, Hc, Hs. simpl. rewrite Htime.
  by destruct (int_str env text).
Qed.

(** X5, at a form whose number field holds "soon". *)
Lemma home_page_send_caching_witness :
  home_page Example.env "POST"
    {[ "send_caching" := "Send"; "cache_time" := "soon" ]} admin0 =
  (inl (FormValueError "soon"), with_settings (set_allow_caching false) admin0).
Proof.
  exact (home_page_send_caching Example.env
           {[ "send_caching" := "Send"; "cache_time" := "soon" ]}
           "Send" "soon" admin0 eq_refl eq_refl eq_refl eq_refl eq_refl).
Defined.

(** X6. Clearing the cache from the page empties it and logs one line;
    the next GET that passes the filter then goes to the origin, with
    exactly one [urlopen], whatever the cache held before. *)
Theorem clear_cache_then_get env form v a self s :
  form !! "toggle_server" = None →
  form !! "send_filters" = None →
  form !! "send_caching" = None →
  form !! "clear_cache" = Some v →
  let a' := snd (home_page env "POST" form a) in
  cache (settings a') = ∅ ∧
  sse_queue (settings a') = sse_queue (settings a) ++ ["> Client cleared cache <"] ∧
  (ss s = settings a' →
   filter_passes env self s →
   filter is_forward (new_events (do_GET env self) s) =
     [Urlopen (url_request (path self))]).
Proof.
  intros Ht Hf Hs Hc a'. subst a'.
  unfold home_page, toggle_server, send_filters, clear_cache, send_caching, and_then.
  rewrite Ht, Hf, Hs, Hc. simpl.
  split; [done|]. split; [done|].
  intros Hss Hpass. apply (do_GET_forward_once _ _ _ Hpass).
  right. unfold cache_lookup. rewrite Hss. simpl. by rewrite lookup_empty.
Qed.

(** X6, at a cache that held an unexpired entry for the URL. *)
Lemma clear_cache_then_get_witness :
  let self := Example.client "10.0.0.5" "GET" "http://example.com/a" [] [] in
  let a := {| settings := ss cached_state; proxy_server_running := true; actions := [] |} in
  let a' := snd (home_page Example.env "POST" {[ "clear_cache" := "Clear" ]} a) in
  filter is_forward
    (new_events (do_GET Example.env self) {| ss := settings a'; trace := [] |}) =
    [Urlopen (url_request "http://example.com/a")].
Proof.
  intros self a a'.
  pose (form := {[ "clear_cache" := "Clear" ]} : gmap string string).
  assert (form !! "toggle_server" = None) as Ht by reflexivity.
  assert (form !! "send_filters" = None) as Hf by reflexivity.
  assert (form !! "send_caching" = None) as Hs by reflexivity.
  assert (form !! "clear_cache" = Some "Clear") as Hc by reflexivity.
  destruct (clear_cache_then_get Example.env form "Clear" a self
              {| ss := settings a'; trace := [] |} Ht Hf Hs Hc)
    as (_ & _ & Hget).
  apply Hget; [reflexivity|split; reflexivity].
Defined.

(** * Further properties of the handler *)

(** ** The exception that escapes *)






(** ** The remaining branches of [handle_exception] *)

(** X8. A [ValueError] is answered 400 "Bad Request".  A connection
    reset and a broken pipe are only logged: nothing is sent to the
    client.  Any other [OSError] is logged with its [strerror] and any
    exception outside these classes with its text, and both are answered
    500 "Internal Server Error".  In no case is the cache touched. *)
Theorem exception_taxonomy env self e s :
  let evs := new_events (handle_exception env self e) s in
  let lines := logged (handle_exception env self e) s in
  (e_class e = ValueError →
     evs = [SendError 400 "Bad Request" None] ∧
     lines = [error_line env self 400 "Bad Request"; access_line env self 400]) ∧
  (e_class e = ConnectionResetError →
     evs = [] ∧ lines = ["* connection reset by remote host *"]) ∧
  (e_class e = BrokenPipeError →
     evs = [] ∧ lines = ["* client disconnected before response could be sent *"]) ∧
  (e_class e = OSError →
     evs = [SendError 500 "Internal Server Error" None] ∧
     lines = ["* OS Error: " +:+ e_strerror e +:+ " *";
              error_line env self 500 "Internal Server Error";
              access_line env self 500]) ∧
  (e_class e = TypeError ∨ e_class e = Exception →
     evs = [SendError 500 "Internal Server Error" None] ∧
     lines = ["* unexpected Error: " +:+ e_str e +:+ " *";
              error_line env self 500 "Internal Server Error";
              access_line env self 500]) ∧
  cache (ss (snd (handle_exception env self e s))) = cache (ss s).
Proof.
  intros evs lines. subst evs lines.
  assert (∀ c (evs : list event) (lines : list string),
    e_class e = c →
    (e_class e = c →
     trace (snd (handle_exception env self e s)) = trace s ++ evs ∧
     sse_queue (ss (snd (handle_exception env self e s))) =
       sse_queue (ss s) ++ lines) →
    new_events (handle_exception env self e) s = evs ∧
    logged (handle_exception env self e) s = lines) as Hboth.
  { intros c evs lines Hc Hrun. destruct (Hrun Hc) as [Htr Hq].
    split; [by apply new_events_app|by apply logged_app]. }
  split; [|split; [|split; [|split; [|split]]]].
  - intros Hc. apply (Hboth _ _ _ Hc). intros _.
    unfold handle_exception, isinstance. rewrite Hc. simpl.
    by rewrite <- !app_assoc.
  - intros Hc. apply (Hboth _ _ _ Hc). intros _.
    unfold handle_exception, isinstance. rewrite Hc. simpl.
    by rewrite app_nil_r.
  - intros Hc. apply (Hboth _ _ _ Hc). intros _.
    unfold handle_exception, isinstance. rewrite Hc. simpl.
    by rewrite app_nil_r.
  - intros Hc. apply (Hboth _ _ _ Hc). intros _.
    unfold handle_exception, isinstance. rewrite Hc. simpl.
    by rewrite <- !app_assoc.
  - intros [Hc|Hc]; apply (Hboth _ _ _ Hc); intros _;
      unfold handle_exception, isinstance; rewrite Hc; simpl;
      by rewrite <- !app_assoc.
  - apply handle_exception_cache.
Qed.

(** X8, at the [TypeError] of [int(None)]. *)
Lemma exception_taxonomy_witness :
  let self := Example.client "10.0.0.5" "POST" "http://example.com/a" [] [] in
  let s := {| ss := Example.settings0; trace := [] |} in
  new_events (handle_exception Example.env self int_TypeError) s =
    [SendError 500 "Internal Server Error" None].
Proof.
  intros self s.
  destruct (exception_taxonomy Example.env self int_TypeError s)
    as (_ & _ & _ & _ & Hother & _).
  apply Hother. left. reflexivity.
Defined.

(** ** Methods answered by the proxy itself *)

Lemma OPTIONS_run env self s :
  OPTIONS env self s =
  (inr tt,
   {| ss := queue_put (access_line env self 200) (ss s);
      trace := trace s ++
        [SendResponse 200 None;
         SendHeader "Allow" "OPTIONS, GET, HEAD, POST, PUT, DELETE, CONNECT";
         SendHeader "Content-Length" "0"; EndHeaders] |}).
Proof.
  unfold OPTIONS. msteps. do 2 f_equal. by rewrite <- !app_assoc.
Qed.

(** X9. Once the filter has passed, OPTIONS is answered 200 with the
    fixed Allow header and Content-Length 0 and no body, and TRACE and
    CONNECT are answered 405 "Method Not Allowed"; none of the three
    calls the origin or the cache, whatever the target URL. *)
Theorem synthetic_methods env self s :
  filter_passes env self s →
  new_events (do_OPTIONS env self) s =
    [SendResponse 200 None;
     SendHeader "Allow" "OPTIONS, GET, HEAD, POST, PUT, DELETE, CONNECT";
     SendHeader "Content-Length" "0"; EndHeaders] ∧
  new_events (do_TRACE env self) s = [SendError 405 "Method Not Allowed" None] ∧
  new_events (do_CONNECT env self) s = [SendError 405 "Method Not Allowed" None] ∧
  cache (ss (snd (do_OPTIONS env self s))) = cache (ss s) ∧
  cache (ss (snd (do_TRACE env self s))) = cache (ss s) ∧
  cache (ss (snd (do_CONNECT env self s))) = cache (ss s).
Proof.
  intros Hpass. unfold do_OPTIONS, do_TRACE, do_CONNECT.
  assert (TRACE env self s = send_error env self 405 "Method Not Allowed" None s)
    as Htrace by reflexivity.
  assert (CONNECT env self s = send_error env self 405 "Method Not Allowed" None s)
    as Hconnect by reflexivity.
  rewrite send_error_run in Htrace, Hconnect.
  split; [apply (returned_events _ _ _ _ _ _ Hpass (OPTIONS_run env self s) eq_refl)|].
  split; [apply (returned_events _ _ _ _ _ _ Hpass Htrace eq_refl)|].
  split; [apply (returned_events _ _ _ _ _ _ Hpass Hconnect eq_refl)|].
  rewrite !(filter_passes_run _ _ _ _ Hpass). unfold try_except.
  by rewrite OPTIONS_run, Htrace, Hconnect.
Qed.

(** X9, at an OPTIONS for a URL the origin would answer with 404. *)
Lemma synthetic_methods_witness :
  let self := Example.client "10.0.0.5" "OPTIONS" "http://example.com/none" [] [] in
  let s := {| ss := Example.settings0; trace := [] |} in
  new_events (do_OPTIONS Example.env self) s =
    [SendResponse 200 None;
     SendHeader "Allow" "OPTIONS, GET, HEAD, POST, PUT, DELETE, CONNECT";
     SendHeader "Content-Length" "0"; EndHeaders].
Proof.
  intros self s.
  destruct (synthetic_methods Example.env self s) as (Hoptions & _).
  - split; reflexivity.
  - exact Hoptions.
Defined.

(** ** GET: storing and replaying *)

(** The filters read the lists and nothing else. *)
Lemma filter_passes_lists env self s s' :
  ip_whitelist (ss s') = ip_whitelist (ss s) →
  ip_blacklist (ss s') = ip_blacklist (ss s) →
  url_whitelist (ss s') = url_whitelist (ss s) →
  url_blacklist (ss s') = url_blacklist (ss s) →
  filter_passes env self s → filter_passes env self s'.
Proof.
  unfold filter_passes. intros Hiw Hib Huw Hub [Hip Hurl].
  rewrite filter_request_ip_run in *. rewrite Hiw, Hib.
  injection Hip as ->. split; [done|].
  destruct (urlparse_hostname env (path self)) as [e|host] eqn:Hparse.
  - by rewrite (filter_request_url_raise _ _ _ _ Hparse) in Hurl.
  - rewrite (filter_request_url_run env self s host Hparse) in Hurl.
    rewrite (filter_request_url_run env self s' host Hparse), Huw, Hub.
    by injection Hurl as ->.
Qed.

Lemma do_GET_miss_run env self s res res_content :
  filter_passes env self s →
  allow_caching (ss s) = true →
  cache_lookup (time env) (path self) (cache (ss s)) = None →
  urlopen env (url_request (path self)) = inr res →
  res_read res = inr res_content →
  do_GET env self s =
  (inr tt,
   {| ss := queue_put (access_line env self (status res))
              (set_cache
                 (cache_store (time env) (path self) (cache_data_of res res_content)
                    (caching_timer (ss s)) (cache (ss s))) (ss s));
      trace := trace s ++
        [CacheGet (path self); Urlopen (url_request (path self));
         CacheSet (path self) (cache_data_of res res_content) (caching_timer (ss s));
         SendResponse (status res) None] ++
        header_events (res_headers res) ++
        [EndHeaders; WfileWrite res_content] |}).
Proof.
  intros Hpass Hon Hmiss Hopen Hread. unfold do_GET.
  rewrite (filter_passes_run _ _ _ _ Hpass).
  apply try_except_ok.
  rewrite (GET_forward_run _ _ _ (or_intror Hmiss)). simpl.
  by rewrite Hopen, Hread, Hon.
Qed.

(** X10. With caching enabled and no unexpired entry for the URL, a GET
    that the origin answers stores the answer's headers and body under
    the URL, with the timer configured at that moment, before it sends
    anything to the client; then it relays status, headers and body. *)
Theorem get_miss_stores env self s res res_content :
  filter_passes env self s →
  allow_caching (ss s) = true →
  cache_lookup (time env) (path self) (cache (ss s)) = None →
  urlopen env (url_request (path self)) = inr res →
  res_read res = inr res_content →
  new_events (do_GET env self) s =
    [CacheGet (path self); Urlopen (url_request (path self));
     CacheSet (path self) (cache_data_of res res_content) (caching_timer (ss s));
     SendResponse (status res) None] ++
    header_events (res_headers res) ++
    [EndHeaders; WfileWrite res_content] ∧
  cache (ss (snd (do_GET env self s))) =
    <[path self := (cache_data_of res res_content, time env + caching_timer (ss s))]>
      (cache (ss s)).
Proof.
  intros Hpass Hon Hmiss Hopen Hread.
  pose proof (do_GET_miss_run env self s res res_content Hpass Hon Hmiss Hopen Hread)
    as Hrun.
  split; [apply new_events_app|]; by rewrite Hrun.
Qed.

(** X10, at the first request of the scenario. *)
Lemma get_miss_stores_witness :
  let self := Example.client "10.0.0.5" "GET" "http://example.com/a" [] [] in
  let s := {| ss := Example.settings0; trace := [] |} in
  cache (ss (snd (do_GET Example.env self s))) =
    {[ "http://example.com/a" :=
         ({| ce_headers := [("Content-Type", "text/plain")];
             ce_content := Example.hello |}, 1060) ]}.
Proof.
  intros self s.
  destruct (get_miss_stores Example.env self s
              {| status := 200; res_headers := [("Content-Type", "text/plain")];
                 res_read := inr Example.hello |} Example.hello
              (conj eq_refl eq_refl) eq_refl eq_refl eq_refl eq_refl)
    as (_ & Hcache).
  rewrite Hcache. reflexivity.
Defined.

(** The filters ask the environment for the hostname and nothing else. *)
Lemma filter_passes_env env env' self s :
  urlparse_hostname env' = urlparse_hostname env →
  filter_passes env self s → filter_passes env' self s.
Proof.
  unfold filter_passes. intros Henv [Hip Hurl]. split; [done|].
  destruct (urlparse_hostname env (path self)) as [e|host] eqn:Hparse.
  - by rewrite (filter_request_url_raise _ _ _ _ Hparse) in Hurl.
  - rewrite (filter_request_url_run env self s host Hparse) in Hurl.
    rewrite <- Henv in Hparse.
    by rewrite (filter_request_url_run env' self s host Hparse).
Qed.

(** X11. After such a GET, made when the clock read [time env], the
    same GET at a later reading [time env'] is served from the cache as
    long as fewer seconds than the timer have passed: status 200 "OK
    (from cache)", the headers and the body the origin had sent, and no
    second [urlopen].  Once the timer has run out the entry is ignored
    and the GET calls [urlopen] again, once. *)
Theorem cached_until_timer env env' self s res res_content :
  filter_passes env self s →
  allow_caching (ss s) = true →
  cache_lookup (time env) (path self) (cache (ss s)) = None →
  urlopen env (url_request (path self)) = inr res →
  res_read res = inr res_content →
  urlparse_hostname env' = urlparse_hostname env →
  let s1 := snd (do_GET env self s) in
  (time env' < time env + caching_timer (ss s) →
     new_events (do_GET env' self) s1 =
       [CacheGet (path self); SendResponse 200 (Some "OK (from cache)")] ++
       header_events (res_headers res) ++
       [EndHeaders; WfileWrite res_content]) ∧
  (time env + caching_timer (ss s) ≤ time env' →
     filter is_forward (new_events (do_GET env' self) s1) =
       [Urlopen (url_request (path self))]).
Proof.
  intros Hpass Hon Hmiss Hopen Hread Henv s1. subst s1.
  rewrite (do_GET_miss_run env self s res res_content Hpass Hon Hmiss Hopen Hread).
  simpl.
  match goal with |- context [new_events _ ?s1] => set (s1' := s1) end.
  assert (filter_passes env' self s1') as Hpass1.
  { apply (filter_passes_env env env'); [done|].
    by apply (filter_passes_lists env self s s1'). }
  split; intros Htime.
  - assert (cache_lookup (time env') (path self) (cache (ss s1')) =
            Some (cache_data_of res res_content)) as Hhit.
    { unfold cache_lookup, s1'. simpl. unfold cache_store. rewrite lookup_insert_eq.
      destruct (Z.ltb_spec (time env') (time env + caching_timer (ss s))); [done|lia]. }
    pose proof (GET_hit_run env' self s1' _ Hon Hhit) as Hrun.
    unfold do_GET. apply (returned_events _ _ _ _ _ _ Hpass1 Hrun eq_refl).
  - apply do_GET_forward_once; [done|]. right.
    unfold cache_lookup, s1'. simpl. unfold cache_store. rewrite lookup_insert_eq.
    destruct (Z.ltb_spec (time env') (time env + caching_timer (ss s))); [lia|done].
Qed.

(** X11, at the scenario: stored at 1000 with a timer of 60 seconds,
    asked again at 1059 and at 1060. *)
Lemma cached_until_timer_witness :
  let self := Example.client "10.0.0.5" "GET" "http://example.com/a" [] [] in
  let s := {| ss := Example.settings0; trace := [] |} in
  let s1 := snd (do_GET Example.env self s) in
  new_events (do_GET (Example.env_at 1059) self) s1 =
    [CacheGet "http://example.com/a"; SendResponse 200 (Some "OK (from cache)");
     SendHeader "Content-Type" "text/plain"; EndHeaders; WfileWrite Example.hello] ∧
  filter is_forward (new_events (do_GET (Example.env_at 1060) self) s1) =
    [Urlopen (url_request "http://example.com/a")].
Proof.
  intros self s s1.
  pose (res := {| status := 200; res_headers := [("Content-Type", "text/plain")];
                  res_read := inr Example.hello |}).
  split.
  - apply (cached_until_timer Example.env (Example.env_at 1059) self s res
             Example.hello (conj eq_refl eq_refl) eq_refl eq_refl eq_refl eq_refl
             eq_refl).
    reflexivity.
  - apply (cached_until_timer Example.env (Example.env_at 1060) self s res
             Example.hello (conj eq_refl eq_refl) eq_refl eq_refl eq_refl eq_refl
             eq_refl).
    discriminate.
Defined.

(** X12. A GET on the forwarding branch whose [urlopen] or whose
    [res.read()] raises stores nothing: [cache.set] is not called and
    the cache is as it was. *)
Theorem get_failure_not_cached env self s e :
  filter_passes env self s →
  allow_caching (ss s) = false ∨
  cache_lookup (time env) (path self) (cache (ss s)) = None →
  urlopen env (url_request (path self)) = inl e ∨
  (∃ res, urlopen env (url_request (path self)) = inr res ∧ res_read res = inl e) →
  filter is_cache_op (new_events (do_GET env self) s) = [CacheGet (path self)] ∧
  cache (ss (snd (do_GET env self s))) = cache (ss s).
Proof.
  intros Hpass Hmiss Hfail. unfold do_GET.
  pose proof (GET_forward_run env self s Hmiss) as Hrun. simpl in Hrun.
  assert (GET env self s =
          (inl e, {| ss := ss s;
                     trace := trace s ++
                       [CacheGet (path self); Urlopen (url_request (path self))] |}))
    as Hraise.
  { destruct Hfail as [Hopen|(res & Hopen & Hread)]; rewrite Hopen in Hrun; [done|].
    by rewrite Hread in Hrun. }
  destruct (raised_events _ _ _ _ _ _ _ Hpass Hraise eq_refl) as (evs2 & Hnew & Hevs2).
  split.
  - rewrite Hnew, filter_app, (filter_SendError is_cache_op evs2) by done.
    reflexivity.
  - rewrite (filter_passes_run _ _ _ _ Hpass), (try_except_raise _ _ _ _ _ Hraise).
    by rewrite handle_exception_cache.
Qed.

(** X12, at a GET whose origin times out. *)
Lemma get_failure_not_cached_witness :
  let self := Example.client "10.0.0.5" "GET" "http://example.com/timeout" [] [] in
  let s := {| ss := Example.settings0; trace := [] |} in
  filter is_cache_op (new_events (do_GET Example.env self) s) =
    [CacheGet "http://example.com/timeout"] ∧
  cache (ss (snd (do_GET Example.env self s))) = cache (ss s).
Proof.
  intros self s.
  apply (get_failure_not_cached Example.env self s Example.timed_out).
  - split; reflexivity.
  - right. reflexivity.
  - left. reflexivity.
Defined.

(** ** DELETE *)

(** X13. A DELETE that passes the filter and whose URL has a scheme
    calls [urlopen] exactly once, with method DELETE, no body and the
    inbound headers, each under the client's name with the client's last
    value; when the origin answers, its status, headers and body are
    relayed in this order.  For a URL without a scheme the request
    cannot be built: [urlopen] is not called and the answer is 400 "Bad
    Request". *)
Theorem delete_outbound env self s :
  filter_passes env self s →
  (is_Some (url_type env (path self)) →
     filter is_forward (new_events (do_DELETE env self) s) =
       [Urlopen (DELETE_request self)]) ∧
  (url_type env (path self) = None →
     new_events (do_DELETE env self) s = [SendError 400 "Bad Request" None]) ∧
  req_data (DELETE_request self) = None ∧
  method (DELETE_request self) = Some "DELETE" ∧
  (∀ k, dict_get k (req_headers (DELETE_request self)) =
        VStr <$> last_value k (headers self)) ∧
  (∀ res res_content,
     urlopen env (DELETE_request self) = inr res →
     res_read res = inr res_content →
     new_events (do_DELETE env self) s =
       [Urlopen (DELETE_request self); SendResponse (status res) None] ++
       header_events (res_headers res) ++
       [EndHeaders; WfileWrite res_content]).
Proof.
  intros Hpass.
  pose proof (DELETE_run env self s) as Hrun. simpl in Hrun.
  split; [|split; [|split; [done|split; [done|split;
    [intros k; apply dict_get_copy_headers|]]]]].
  - intros Htype. rewrite (do_DELETE_forward _ _ _ Hpass).
    by apply request_calls_typed.
  - intros Htype. unfold do_DELETE. apply new_events_app.
    rewrite (filter_passes_run _ _ _ _ Hpass).
    rewrite (urlopen_untyped env (DELETE_request self) Htype) in Hrun.
    unfold request_calls in Hrun. simpl in Hrun. rewrite Htype in Hrun.
    rewrite (try_except_raise _ _ _ _ _ Hrun). simpl. by rewrite app_nil_r.
  - intros res res_content Hopen Hread. rewrite Hopen, Hread in Hrun.
    unfold do_DELETE.
    rewrite (returned_events _ _ _ _ _ _ Hpass Hrun eq_refl).
    simpl. by rewrite <- app_assoc.
Qed.

(** X13, at a DELETE that carries a header twice, spelled the same, and
    at a DELETE for /index.html. *)
Lemma delete_outbound_witness :
  let hs := [("X-Tag", "one"); ("Accept", "*/*"); ("X-Tag", "two")] in
  let self := Example.client "10.0.0.5" "DELETE" "http://example.com/a" hs [] in
  let bare := Example.client "10.0.0.5" "DELETE" "/index.html" hs [] in
  let s := {| ss := Example.settings0; trace := [] |} in
  filter is_forward (new_events (do_DELETE Example.env self) s) =
    [Urlopen {| full_url := "http://example.com/a"; req_data := None;
                req_headers := [("X-Tag", VStr "two"); ("Accept", VStr "*/*")];
                method := Some "DELETE" |}] ∧
  new_events (do_DELETE Example.env bare) s = [SendError 400 "Bad Request" None].
Proof.
  intros hs self bare s.
  destruct (delete_outbound Example.env self s (conj eq_refl eq_refl))
    as (Hforward & _).
  destruct (delete_outbound Example.env bare s (conj eq_refl eq_refl))
    as (_ & Hbare & _).
  exact (conj (Hforward (ex_intro _ "http" eq_refl)) (Hbare eq_refl)).
Defined.

(** ** A body that cannot be read *)

Lemma raised_timeout_events env func self s e s1 (evs1 : list event) :
  filter_passes env self s →
  func self s = (inl e, s1) →
  trace s1 = trace s ++ evs1 →
  isinstance e TimeoutError = true →
  new_events (filter_and_exceptions env func self) s =
    evs1 ++ [SendError 504 "Gateway Timeout" None].
Proof.
  intros Hpass Hraise Htr Hto. apply new_events_app.
  rewrite (filter_passes_run _ _ _ _ Hpass), (try_except_raise _ _ _ _ _ Hraise).
  rewrite (handle_exception_timeout _ _ _ _ Hto). simpl.
  by rewrite Htr, <- app_assoc.
Qed.

(** X14. When the origin has answered and reading its body then times
    out, DELETE and PUT have already relayed the origin's status and
    headers, and the 504 error response follows them on the same
    connection; GET and POST read the body first and send the 504
    alone. *)
Theorem late_read_failure env self s res e :
  filter_passes env self s →
  isinstance e TimeoutError = true →
  res_read res = inl e →
  (urlopen env (DELETE_request self) = inr res →
     new_events (do_DELETE env self) s =
       [Urlopen (DELETE_request self); SendResponse (status res) None] ++
       header_events (res_headers res) ++
       [EndHeaders; SendError 504 "Gateway Timeout" None]) ∧
  (∀ n, PUT_content_length env self = inr n →
     urlopen env (PUT_request self n) = inr res →
     new_events (do_PUT env self) s =
       [RfileRead n; Urlopen (PUT_request self n); SendResponse (status res) None] ++
       header_events (res_headers res) ++
       [EndHeaders; SendError 504 "Gateway Timeout" None]) ∧
  (allow_caching (ss s) = false ∨
   cache_lookup (time env) (path self) (cache (ss s)) = None →
   urlopen env (url_request (path self)) = inr res →
     new_events (do_GET env self) s =
       [CacheGet (path self); Urlopen (url_request (path self));
        SendError 504 "Gateway Timeout" None]) ∧
  (∀ v n, msg_get "Content-Length" (headers self) = Some v →
     int_str env v = Some n →
     urlopen env (POST_request self n) = inr res →
     new_events (do_POST env self) s =
       [RfileRead n; Urlopen (POST_request self n);
        SendError 504 "Gateway Timeout" None]).
Proof.
  intros Hpass Hto Hread.
  split; [|split; [|split]].
  - intros Hopen. unfold do_DELETE.
    pose proof (DELETE_run env self s) as Hrun. simpl in Hrun.
    rewrite Hopen, Hread in Hrun.
    rewrite (raised_timeout_events _ _ _ _ _ _ _ Hpass Hrun eq_refl Hto).
    simpl. by rewrite <- !app_assoc.
  - intros n Hn Hopen. unfold do_PUT.
    pose proof (PUT_run env self s) as Hrun.
    fold (PUT_content_length env self) in Hrun. rewrite Hn in Hrun. simpl in Hrun.
    rewrite Hopen, Hread in Hrun.
    rewrite (raised_timeout_events _ _ _ _ _ _ _ Hpass Hrun eq_refl Hto).
    simpl. by rewrite <- !app_assoc.
  - intros Hmiss Hopen. unfold do_GET.
    pose proof (GET_forward_run env self s Hmiss) as Hrun. simpl in Hrun.
    rewrite Hopen, Hread in Hrun.
    by rewrite (raised_timeout_events _ _ _ _ _ _ _ Hpass Hrun eq_refl Hto).
  - intros v n Hv Hn Hopen. unfold do_POST.
    pose proof (POST_run env self s) as Hrun.
    rewrite Hv, Hn in Hrun. simpl in Hrun. rewrite Hopen, Hread in Hrun.
    by rewrite (raised_timeout_events _ _ _ _ _ _ _ Hpass Hrun eq_refl Hto).
Qed.

(** X14, at a DELETE to an origin that sends its headers and stalls. *)
Lemma late_read_failure_witness :
  let self := Example.client "10.0.0.5" "DELETE" "http://example.com/a" [] [] in
  let s := {| ss := Example.settings0; trace := [] |} in
  new_events (do_DELETE stalling_env self) s =
    [Urlopen (DELETE_request self); SendResponse 200 None;
     SendHeader "Content-Length" "5"; EndHeaders;
     SendError 504 "Gateway Timeout" None].
Proof.
  intros self s.
  destruct (late_read_failure stalling_env self s stalled_response Example.timed_out
              (conj eq_refl eq_refl) eq_refl eq_refl) as (Hdelete & _).
  exact (Hdelete eq_refl).
Defined.

(** ** The Content-Length of a POST and of a PUT *)

(** X16. Without a Content-Length header a POST is answered 500, and a
    PUT reads nothing and is forwarded with an empty body when its URL
    has a scheme; with a Content-Length that is no number both are
    answered 400.  These 400 and 500 are sent before anything is read
    from the client or sent to the origin.  A PUT without the header
    and for a URL without a scheme is answered 400 after the empty
    read, and nothing is sent to the origin. *)
Theorem content_length_header_cases env self s :
  filter_passes env self s →
  (msg_get "Content-Length" (headers self) = None →
     new_events (do_POST env self) s =
       [SendError 500 "Internal Server Error" None] ∧
     (is_Some (url_type env (path self)) →
        filter is_forward (new_events (do_PUT env self) s) =
          [Urlopen (PUT_request self 0)]) ∧
     (url_type env (path self) = None →
        new_events (do_PUT env self) s =
          [RfileRead 0; SendError 400 "Bad Request" None]) ∧
     req_data (PUT_request self 0) = Some []) ∧
  (∀ v, msg_get "Content-Length" (headers self) = Some v →
     int_str env v = None →
     new_events (do_POST env self) s = [SendError 400 "Bad Request" None] ∧
     new_events (do_PUT env self) s = [SendError 400 "Bad Request" None]).
Proof.
  intros Hpass. split.
  - intros Hnone.
    assert (PUT_content_length env self = inr 0) as Hzero
      by (unfold PUT_content_length; by rewrite Hnone).
    split; [|split; [|split]].
    + unfold do_POST. apply new_events_app.
      rewrite (filter_passes_run _ _ _ _ Hpass).
      pose proof (POST_run env self s) as Hrun. rewrite Hnone in Hrun.
      by rewrite (try_except_raise _ _ _ _ _ Hrun).
    + intros Htype. rewrite (do_PUT_forward_cases _ _ _ Hpass), Hzero.
      by apply request_calls_typed.
    + intros Htype. unfold do_PUT. apply new_events_app.
      rewrite (filter_passes_run _ _ _ _ Hpass).
      pose proof (PUT_run env self s) as Hrun.
      fold (PUT_content_length env self) in Hrun. rewrite Hzero in Hrun.
      simpl in Hrun.
      rewrite (urlopen_untyped env (PUT_request self 0) Htype) in Hrun.
      unfold request_calls in Hrun. simpl in Hrun. rewrite Htype in Hrun.
      rewrite (try_except_raise _ _ _ _ _ Hrun). simpl. by rewrite <- app_assoc.
    + unfold PUT_request, read_bytes. simpl. by rewrite take_0.
  - intros v Hv Hbad. split.
    + unfold do_POST. apply new_events_app.
      rewrite (filter_passes_run _ _ _ _ Hpass).
      pose proof (POST_run env self s) as Hrun. rewrite Hv, Hbad in Hrun.
      by rewrite (try_except_raise _ _ _ _ _ Hrun).
    + unfold do_PUT. apply new_events_app.
      rewrite (filter_passes_run _ _ _ _ Hpass).
      pose proof (PUT_run env self s) as Hrun. rewrite Hv, Hbad in Hrun.
      by rewrite (try_except_raise _ _ _ _ _ Hrun).
Qed.

(** X16, at a POST and a PUT without any header, and at such a PUT for
    /index.html. *)
Lemma content_length_header_cases_witness :
  let s := {| ss := Example.settings0; trace := [] |} in
  let post := Example.client "10.0.0.5" "POST" "http://example.com/a" []
                (list_byte_of_string "abc") in
  let put := Example.client "10.0.0.5" "PUT" "http://example.com/a" []
               (list_byte_of_string "abc") in
  let bare := Example.client "10.0.0.5" "PUT" "/index.html" []
                (list_byte_of_string "abc") in
  new_events (do_POST Example.env post) s =
    [SendError 500 "Internal Server Error" None] ∧
  filter is_forward (new_events (do_PUT Example.env put) s) =
    [Urlopen (PUT_request put 0)] ∧
  new_events (do_PUT Example.env bare) s =
    [RfileRead 0; SendError 400 "Bad Request" None].
Proof.
  intros s post put bare.
  destruct (content_length_header_cases Example.env post s (conj eq_refl eq_refl))
    as [Hpost _].
  destruct (content_length_header_cases Example.env put s (conj eq_refl eq_refl))
    as [Hput _].
  destruct (content_length_header_cases Example.env bare s (conj eq_refl eq_refl))
    as [Hbare _].
  destruct (Hput eq_refl) as (_ & Hforward & _).
  destruct (Hbare eq_refl) as (_ & _ & Hbad & _).
  exact (conj (proj1 (Hpost eq_refl))
           (conj (Hforward (ex_intro _ "http" eq_refl)) (Hbad eq_refl))).
Defined.

(** ** The headers copied by DELETE and PUT *)

Lemma dict_set_keys {V} k (v : V) d :
  (dict_set k v d).*1 = if decide (k ∈ d.*1) then d.*1 else d.*1 ++ [k].
Proof.
  induction d as [|[k' v'] d IH].
  - destruct (decide (k ∈ ([] : list (string * V)).*1)) as [Hin|_]; [|done].
    by apply elem_of_nil in Hin.
  - cbn [dict_set]. rewrite fmap_cons. cbn [fst].
    destruct (decide (k = k')) as [->|Hne].
    + rewrite fmap_cons. cbn [fst].
      destruct (decide (k' ∈ k' :: d.*1)) as [_|Hnin]; [done|].
      destruct Hnin. left.
    + rewrite fmap_cons, IH. cbn [fst].
      destruct (decide (k ∈ d.*1)) as [Hin|Hnin];
        destruct (decide (k ∈ k' :: d.*1)) as [Hin'|Hnin']; try done.
      * destruct Hnin'. by right.
      * by apply elem_of_cons in Hin' as [?|?].
Qed.

Lemma foldl_dict_set_keys hs (d : list (string * pyval)) :
  NoDup d.*1 →
  let d' := foldl (fun d '(header, value) => dict_set header (VStr value) d) d hs in
  NoDup d'.*1 ∧ ∀ k, k ∈ d'.*1 ↔ k ∈ d.*1 ∨ k ∈ hs.*1.
Proof.
  revert d. induction hs as [|[header value] hs IH]; intros d Hd; simpl.
  - split; [done|]. intros k. rewrite elem_of_nil. tauto.
  - assert (NoDup (dict_set header (VStr value) d).*1) as Hd'.
    { rewrite dict_set_keys. destruct (decide (header ∈ d.*1)); [done|].
      apply NoDup_app. split; [done|]. split; [|apply NoDup_singleton].
      intros x Hx ->%list_elem_of_singleton. done. }
    destruct (IH _ Hd') as [Hnodup Hkeys]. split; [done|].
    intros k. rewrite Hkeys, dict_set_keys, elem_of_cons.
    destruct (decide (header ∈ d.*1)) as [Hin|Hnin].
    + split; [intros [?|?]; auto|]. intros [?|[->|?]]; auto.
    + rewrite elem_of_app, list_elem_of_singleton. tauto.
Qed.

(** X17. The headers DELETE and PUT hand to the origin request name
    every inbound header name, and each name once: a header the client
    sent several times under the same spelling is sent once. *)
Theorem copy_headers_keys (hs : list (string * string)) :
  NoDup (copy_headers hs).*1 ∧
  ∀ k, k ∈ (copy_headers hs).*1 ↔ k ∈ hs.*1.
Proof.
  unfold copy_headers.
  destruct (foldl_dict_set_keys hs [] (NoDup_nil_2 : NoDup ([] : list (string * pyval)).*1))
    as [Hnodup Hkeys].
  split; [done|]. intros k. rewrite Hkeys. simpl. rewrite elem_of_nil. tauto.
Qed.

(** ** What a request leaves alone *)

Section Keeps.

Context (R : State → State → Prop) `{!PreOrder R}.

Lemma keeps_ret {A} (a : A) : keeps R (mret a).
Proof. intros s. reflexivity. Qed.

Lemma keeps_raise {A} e : keeps R (@raise A e).
Proof. intros s. reflexivity. Qed.

Lemma keeps_lift {A} (r : exn + A) : keeps R (lift r).
Proof. intros s. reflexivity. Qed.

Lemma keeps_gets {A} (f : shared_settings → A) : keeps R (gets f).
Proof. intros s. reflexivity. Qed.

Lemma keeps_bind {A B} (m : M A) (k : A → M B) :
  keeps R m → (∀ a, keeps R (k a)) → keeps R (m ≫= k).
Proof.
  intros Hm Hk s. rewrite bind_run. specialize (Hm s).
  destruct (m s) as [[e|a] s']; [done|].
  etrans; [exact Hm|apply Hk].
Qed.

Lemma keeps_try_except {A} (m : M A) h :
  keeps R m → (∀ e, keeps R (h e)) → keeps R (try_except m h).
Proof.
  intros Hm Hh s. unfold try_except. specialize (Hm s).
  destruct (m s) as [[e|a] s']; [|done].
  etrans; [exact Hm|apply Hh].
Qed.

Lemma keeps_for_each {A} (l : list A) f :
  (∀ x, keeps R (f x)) → keeps R (for_each l f).
Proof.
  intros Hf. induction l as [|x l IH]; simpl; [apply keeps_ret|].
  apply keeps_bind; [apply Hf|by intros _].
Qed.

End Keeps.

Global Instance same_config_preorder : PreOrder same_config.
Proof.
  split.
  - intros g. by repeat split.
  - intros g1 g2 g3 (? & ? & ? & ? & ? & ? & ?) (? & ? & ? & ? & ? & ? & ?).
    repeat split; try congruence. by etrans.
Qed.

Global Instance config_kept_preorder : PreOrder config_kept.
Proof.
  split.
  - intros s. split; reflexivity.
  - intros s1 s2 s3 [? ?] [? ?]. split; by etrans.
Qed.

Global Instance cache_kept_preorder : PreOrder cache_kept.
Proof.
  split.
  - by intros s.
  - intros s1 s2 s3 H12 H23. unfold cache_kept in *. congruence.
Qed.

Lemma keeps_emit_config ev : keeps config_kept (emit ev).
Proof.
  intros s. split; [reflexivity|]. simpl. by apply prefix_app_r.
Qed.

Lemma keeps_emit_cache ev : keeps cache_kept (emit ev).
Proof. by intros s. Qed.

Lemma keeps_put_config line : keeps config_kept (sse_queue_put line).
Proof.
  intros s. split; [|reflexivity]. repeat split. simpl. by apply prefix_app_r.
Qed.

Lemma keeps_put_cache line : keeps cache_kept (sse_queue_put line).
Proof. by intros s. Qed.

Lemma keeps_store_config now key v expire :
  keeps config_kept
    (modify (fun g => set_cache (cache_store now key v expire (cache g)) g)).
Proof. intros s. split; [|reflexivity]. by repeat split. Qed.

(** Breaks a method down to the calls it is made of. *)
Ltac keeps_steps :=
  repeat first
    [ apply keeps_emit_config | apply keeps_emit_cache
    | apply keeps_put_config | apply keeps_put_cache
    | apply keeps_store_config
    | match goal with
      | |- keeps ?R (mret _) => apply (keeps_ret R)
      | |- keeps ?R (raise _) => apply (keeps_raise R)
      | |- keeps ?R (lift _) => apply (keeps_lift R)
      | |- keeps ?R (gets _) => apply (keeps_gets R)
      | |- keeps ?R (_ ≫= _) => apply (keeps_bind R); [|intros ?]
      | |- keeps ?R (try_except _ _) => apply (keeps_try_except R); [|intros ?]
      | |- keeps ?R (for_each _ _) => apply (keeps_for_each R); intros ?
      | |- keeps _ (match ?x with _ => _ end) => destruct x
      end ].

Ltac unfold_handler :=
  unfold filter_and_exceptions, filter_request_ip, filter_request_url,
    handle_exception, GET, POST, DELETE, OPTIONS, PUT, TRACE, CONNECT, HEAD,
    send_error_reason, new_Request, send_error, send_response, send_headers, send_header, end_headers,
    wfile_write, log_error, log_request, log_message, cache_get, cache_set,
    urlopen_url, do_urlopen, read, rfile_read.

Lemma do_method_keeps_config env m self : keeps config_kept (do_method env m self).
Proof.
  rewrite do_method_decorated.
  destruct m; unfold method_body; unfold_handler; keeps_steps.
Qed.

Lemma do_method_keeps_cache env m self :
  m ≠ M_GET → keeps cache_kept (do_method env m self).
Proof.
  intros Hm. rewrite do_method_decorated.
  destruct m; [done|..]; unfold method_body; unfold_handler; keeps_steps.
Qed.

(** X18. No request, whatever its method and however it ends, changes
    the four filter lists, the caching flag or the caching timer; the
    log queue and the trace of calls only grow; and only GET ever
    changes the cache. *)
Theorem request_keeps_settings env (m : http_method) self s :
  let g := ss s in
  let g' := ss (snd (do_method env m self s)) in
  url_whitelist g' = url_whitelist g ∧
  url_blacklist g' = url_blacklist g ∧
  ip_whitelist g' = ip_whitelist g ∧
  ip_blacklist g' = ip_blacklist g ∧
  allow_caching g' = allow_caching g ∧
  caching_timer g' = caching_timer g ∧
  sse_queue g `prefix_of` sse_queue g' ∧
  trace s `prefix_of` trace (snd (do_method env m self s)) ∧
  (m ≠ M_GET → cache g' = cache g).
Proof.
  intros g g'. subst g g'.
  destruct (do_method_keeps_config env m self s)
    as [(? & ? & ? & ? & ? & ? & ?) ?].
  repeat split; try done.
  intros Hm. apply (do_method_keeps_cache env m self Hm s).
Qed.

(** ** What a request logs *)

Lemma returned_logged env func self s s1 (lines : list string) :
  filter_passes env self s →
  func self s = (inr tt, s1) →
  sse_queue (ss s1) = sse_queue (ss s) ++ lines →
  logged (filter_and_exceptions env func self) s = lines.
Proof.
  intros Hpass Hret Hq. apply logged_app.
  rewrite (filter_passes_run _ _ _ _ Hpass).
  by rewrite (try_except_ok _ _ _ _ _ Hret).
Qed.

(** X19. A request the filter rejects puts two lines on the log, the
    error line and the access line of the 403, whatever its method.  A
    GET, HEAD or DELETE that the origin answers, and an OPTIONS, put
    exactly one: the access line, with the status sent to the client. *)
Theorem request_log_lines env self s :
  (filter_rejects env self s →
     ∀ m, logged (do_method env m self) s =
          [error_line env self 403 "Access Denied"; access_line env self 403]) ∧
  (filter_passes env self s →
     logged (do_OPTIONS env self) s = [access_line env self 200] ∧
     (∀ res, urlopen env (url_request (path self)) = inr res →
        logged (do_HEAD env self) s = [access_line env self (status res)]) ∧
     (∀ res res_content,
        allow_caching (ss s) = false ∨
        cache_lookup (time env) (path self) (cache (ss s)) = None →
        urlopen env (url_request (path self)) = inr res →
        res_read res = inr res_content →
        logged (do_GET env self) s = [access_line env self (status res)]) ∧
     (∀ res res_content,
        urlopen env (DELETE_request self) = inr res →
        res_read res = inr res_content →
        logged (do_DELETE env self) s = [access_line env self (status res)])).
Proof.
  split.
  - intros Hrej m. rewrite do_method_decorated. apply logged_app.
    rewrite (filter_rejects_run _ _ _ _ Hrej), send_error_run. simpl.
    by rewrite <- app_assoc.
  - intros Hpass. split; [|split; [|split]].
    + unfold do_OPTIONS.
      by apply (returned_logged _ _ _ _ _ _ Hpass (OPTIONS_run env self s)).
    + intros res Hopen. unfold do_HEAD.
      pose proof (HEAD_run env self s) as Hrun. rewrite Hopen in Hrun.
      by apply (returned_logged _ _ _ _ _ _ Hpass Hrun).
    + intros res res_content Hmiss Hopen Hread. unfold do_GET.
      pose proof (GET_forward_run env self s Hmiss) as Hrun. simpl in Hrun.
      rewrite Hopen, Hread in Hrun.
      apply (returned_logged _ _ _ _ _ _ Hpass Hrun).
      by destruct (allow_caching (ss s)).
    + intros res res_content Hopen Hread. unfold do_DELETE.
      pose proof (DELETE_run env self s) as Hrun. simpl in Hrun.
      rewrite Hopen, Hread in Hrun.
      by apply (returned_logged _ _ _ _ _ _ Hpass Hrun).
Qed.

(** X19, at the blacklisted client of the scenario, for a TRACE. *)
Lemma request_log_lines_witness :
  let self := Example.client "10.0.0.5" "TRACE" "http://example.com/a" [] [] in
  logged (do_method Example.env M_TRACE self) blacklisted_state =
    [error_line Example.env self 403 "Access Denied";
     access_line Example.env self 403].
Proof.
  intros self.
  destruct (request_log_lines Example.env self blacklisted_state) as [Hrej _].
  apply Hrej. left. reflexivity.
Defined.

(** ** A form that lacks a field *)

(** X20. When the filters are sent without the ip_blacklist field, the
    request fails on the missing key after the two URL lists have been
    replaced by the raw pieces of their texts, empty pieces included;
    the IP lists are as before and nothing is logged.  With a URL
    whitelist text of spaces only, the stored whitelist is the list of
    the empty string, and from then on the URL filter rejects every
    request that has a hostname. *)
Theorem send_filters_missing_field env form v ub uw a :
  form !! "toggle_server" = None →
  form !! "send_filters" = Some v →
  form !! "url_blacklist" = Some ub →
  form !! "url_whitelist" = Some uw →
  form !! "ip_blacklist" = None →
  let a' :=
    with_settings (fun g =>
      set_url_whitelist (split_commas (remove_spaces uw))
        (set_url_blacklist (split_commas (remove_spaces ub)) g)) a in
  home_page env "POST" form a = (inl (BadRequestKeyError "ip_blacklist"), a') ∧
  ip_blacklist (settings a') = ip_blacklist (settings a) ∧
  ip_whitelist (settings a') = ip_whitelist (settings a) ∧
  sse_queue (settings a') = sse_queue (settings a) ∧
  (remove_spaces uw = EmptyString →
   ∀ self s host,
     ss s = settings a' →
     urlparse_hostname env (path self) = inr (Some host) →
     host ≠ EmptyString →
     filter_request_url env self s = (inr false, s)).
Proof.
  intros Ht Hf Hub Huw Hib a'. subst a'.
  split; [|split; [done|split; [done|split; [done|]]]].
  - unfold home_page, toggle_server, send_filters, and_then, assign_split.
    rewrite Ht, Hf. simpl. by rewrite Hub, Huw, Hib.
  - intros Hblank self s host Hss Hparse Hhost.
    rewrite (filter_request_url_run _ _ _ _ Hparse), Hss. simpl.
    rewrite Hblank. unfold filter_decision. simpl.
    rewrite bool_decide_eq_false_2; [done|].
    by intros ->%list_elem_of_singleton.
Qed.

(** X20, at a hand-made form with the two URL fields only. *)
Lemma send_filters_missing_field_witness :
  let form : gmap string string :=
    {[ "send_filters" := "Send"; "url_blacklist" := "ads.example";
       "url_whitelist" := " " ]} in
  let self := Example.client "10.0.0.5" "GET" "http://example.com/a" [] [] in
  let a' := snd (home_page Example.env "POST" form admin0) in
  url_whitelist (settings a') = [EmptyString] ∧
  filter_request_url Example.env self {| ss := settings a'; trace := [] |} =
    (inr false, {| ss := settings a'; trace := [] |}).
Proof.
  intros form self a'.
  assert (form !! "toggle_server" = None) as Ht by reflexivity.
  assert (form !! "send_filters" = Some "Send") as Hf by reflexivity.
  assert (form !! "url_blacklist" = Some "ads.example") as Hub by reflexivity.
  assert (form !! "url_whitelist" = Some " ") as Huw by reflexivity.
  assert (form !! "ip_blacklist" = None) as Hib by reflexivity.
  destruct (send_filters_missing_field Example.env form "Send" "ads.example" " "
              admin0 Ht Hf Hub Huw Hib) as (Hpage & _ & _ & _ & Hreject).
  split; [reflexivity|].
  apply (Hreject eq_refl self _ "example.com"); [|reflexivity|discriminate].
  unfold a'. by rewrite Hpage.
Defined.
